(** * HYDRONAUTS water-pressure simulator: a shallow embedding of [app.py]

    The development models the simulation engine of the dashboard
    ([WaterSimulator], lines 63-181 of [app.py]) and the three application
    callbacks that drive it ([_sim_loop], [_toggle_sim], [_clear_alerts]).

    Modelling conventions.
    - Python floats are exact rationals ([Q]); [round], [max] and [min] are
      written out on [Q].
    - Python dictionaries keyed by the zone name are [gmap string _]; a
      subscript read of a missing key raises [KeyError], a subscript store
      inserts the key.
    - The library calls the engine makes ([random.*], [math.sin],
      [datetime.now]) are the operations of a [Runtime] class; the state of
      the outside world (generator, wall clock) is threaded explicitly.
    - A method is a function from the simulator object and the outside world
      to an [outcome]: a normal return or a raised exception, each carrying
      the object as the method left it. *)

From Stdlib Require Import QArith Qround Qabs Lqa ZArith Lia.
From stdpp Require Import gmap strings list fin_maps pretty.

Set Default Proof Using "Type".

(** ** Python built-ins on rationals *)

Module Py.

Definition Qltb (a b : Q) : bool := negb (Qle_bool b a).

(** [max(a, b)]: the first argument unless the second is strictly larger. *)
Definition max (a b : Q) : Q := if Qltb a b then b else a.

(** [min(a, b)]: the first argument unless the second is strictly smaller. *)
Definition min (a b : Q) : Q := if Qltb b a then b else a.

(** [round(x, ndigits)]: nearest multiple of [10^-ndigits], ties to even. *)
Definition round (x : Q) (ndigits : nat) : Q :=
  let scale := (10 ^ Z.of_nat ndigits)%Z in
  let y := (x * inject_Z scale)%Q in
  let f := Qfloor y in
  let r := (y - inject_Z f)%Q in
  let n := if Qltb r (1 # 2) then f
           else if Qltb (1 # 2) r then (f + 1)%Z
           else if Z.even f then f else (f + 1)%Z in
  (inject_Z n / inject_Z scale)%Q.

(** [l[i]] for a list: negative indices count from the end; [None] stands
    for [IndexError]. *)
Definition index {A} (l : list A) (i : Z) : option nat :=
  let n := Z.of_nat (length l) in
  if ((0 <=? i) && (i <? n))%Z then Some (Z.to_nat i)
  else if ((- n <=? i) && (i <? 0))%Z then Some (Z.to_nat (n + i))
  else None.

(** [collections.deque] with a [maxlen]. *)
Record deque := Deque { items : list Q; maxlen : nat }.

(** [deque(iterable, maxlen)]: keeps the last [maxlen] items. *)
Definition deque_new (l : list Q) (n : nat) : deque :=
  Deque (drop (length l - n) l) n.

(** [d.append(x)]: add on the right, then discard one item on the left
    when the length exceeds [maxlen]. *)
Definition deque_append (d : deque) (x : Q) : deque :=
  let l := items d ++ [x] in
  Deque (if (maxlen d <? length l)%nat then drop 1 l else l) (maxlen d).

End Py.

Import Py.

(** ** The outside world *)

(** The library functions [app.py] calls.  [random_uniform] and
    [random_choice] come with the range the Python documentation gives
    them; the gaussian deviate, the sine and the clock are unconstrained. *)
Class Runtime (W : Type) := {
  random_random : W -> Q * W;
  random_gauss : Q -> Q -> W -> Q * W;
  random_uniform : Q -> Q -> W -> Q * W;
  random_choice : list string -> W -> string * W;
  datetime_now_strftime : W -> string * W;
  math_sin : Q -> Q;
  random_uniform_range : forall a b w,
    (a <= b)%Q -> (a <= fst (random_uniform a b w) <= b)%Q;
  random_choice_elem : forall l w, l <> [] -> fst (random_choice l w) ∈ l
}.

(** ** Module-level constants (lines 63-66) *)

Definition ZONES : list string :=
  ["Zone A (Central)"; "Zone B (North)"; "Zone C (Elevated)"; "Zone D (Tail-End)"].
Definition ZONE_BASE_PRESSURE : list Q := [3.8; 3.2; 2.4; 1.8]%Q.
Definition ZONE_MIN_OK : list Q := [2.5; 2.5; 2.0; 1.5]%Q.

Definition ANOMALY_TYPES : list string := ["leak"; "burst"; "low_pressure"].

(** ** The simulator object *)

(** An alert is the tuple [(ts, msg, atype)]. *)
Definition alert : Type := string * string * option string.

Record WaterSimulator := Sim {
  running : bool;
  tick : Z;
  history_len : nat;
  anomaly_active : gmap string bool;
  anomaly_type : gmap string (option string);
  pressure_hist : gmap string deque;
  flow_hist : gmap string deque;
  alerts : list alert;
  total_alerts : Z;
  nrw_percent : Q;
  energy_kwh : Q;
  uptime_pct : Q;
  pump_status : list string;
  valve_status : list bool
}.

Definition set_tick v s :=
  Sim (running s) v (history_len s) (anomaly_active s) (anomaly_type s)
      (pressure_hist s) (flow_hist s) (alerts s) (total_alerts s)
      (nrw_percent s) (energy_kwh s) (uptime_pct s) (pump_status s) (valve_status s).
Definition set_anomaly_active v s :=
  Sim (running s) (tick s) (history_len s) v (anomaly_type s)
      (pressure_hist s) (flow_hist s) (alerts s) (total_alerts s)
      (nrw_percent s) (energy_kwh s) (uptime_pct s) (pump_status s) (valve_status s).
Definition set_anomaly_type v s :=
  Sim (running s) (tick s) (history_len s) (anomaly_active s) v
      (pressure_hist s) (flow_hist s) (alerts s) (total_alerts s)
      (nrw_percent s) (energy_kwh s) (uptime_pct s) (pump_status s) (valve_status s).
Definition set_pressure_hist v s :=
  Sim (running s) (tick s) (history_len s) (anomaly_active s) (anomaly_type s)
      v (flow_hist s) (alerts s) (total_alerts s)
      (nrw_percent s) (energy_kwh s) (uptime_pct s) (pump_status s) (valve_status s).
Definition set_flow_hist v s :=
  Sim (running s) (tick s) (history_len s) (anomaly_active s) (anomaly_type s)
      (pressure_hist s) v (alerts s) (total_alerts s)
      (nrw_percent s) (energy_kwh s) (uptime_pct s) (pump_status s) (valve_status s).
Definition set_alerts v s :=
  Sim (running s) (tick s) (history_len s) (anomaly_active s) (anomaly_type s)
      (pressure_hist s) (flow_hist s) v (total_alerts s)
      (nrw_percent s) (energy_kwh s) (uptime_pct s) (pump_status s) (valve_status s).
Definition set_total_alerts v s :=
  Sim (running s) (tick s) (history_len s) (anomaly_active s) (anomaly_type s)
      (pressure_hist s) (flow_hist s) (alerts s) v
      (nrw_percent s) (energy_kwh s) (uptime_pct s) (pump_status s) (valve_status s).
Definition set_nrw_percent v s :=
  Sim (running s) (tick s) (history_len s) (anomaly_active s) (anomaly_type s)
      (pressure_hist s) (flow_hist s) (alerts s) (total_alerts s)
      v (energy_kwh s) (uptime_pct s) (pump_status s) (valve_status s).
Definition set_energy_kwh v s :=
  Sim (running s) (tick s) (history_len s) (anomaly_active s) (anomaly_type s)
      (pressure_hist s) (flow_hist s) (alerts s) (total_alerts s)
      (nrw_percent s) v (uptime_pct s) (pump_status s) (valve_status s).
Definition set_uptime_pct v s :=
  Sim (running s) (tick s) (history_len s) (anomaly_active s) (anomaly_type s)
      (pressure_hist s) (flow_hist s) (alerts s) (total_alerts s)
      (nrw_percent s) (energy_kwh s) v (pump_status s) (valve_status s).
Definition set_valve_status v s :=
  Sim (running s) (tick s) (history_len s) (anomaly_active s) (anomaly_type s)
      (pressure_hist s) (flow_hist s) (alerts s) (total_alerts s)
      (nrw_percent s) (energy_kwh s) (uptime_pct s) (pump_status s) v.

(** ** Methods as state-and-exception computations *)

Inductive exn := KeyError | IndexError | ValueError.

Inductive outcome (W A : Type) :=
| Returns (a : A) (s : WaterSimulator) (w : W)
| Raises (e : exn) (s : WaterSimulator) (w : W).
Arguments Returns {W A} a s w.
Arguments Raises {W A} e s w.

Definition M (W A : Type) : Type := WaterSimulator -> W -> outcome W A.

Definition ret {W A} (a : A) : M W A := fun s w => Returns a s w.
Definition bind {W A B} (m : M W A) (k : A -> M W B) : M W B :=
  fun s w => match m s w with
             | Returns a s' w' => k a s' w'
             | Raises e s' w' => Raises e s' w'
             end.
Definition raise {W A} (e : exn) : M W A := fun s w => Raises e s w.
Definition gets {W A} (f : WaterSimulator -> A) : M W A := fun s w => Returns (f s) s w.
Definition modify {W} (f : WaterSimulator -> WaterSimulator) : M W unit :=
  fun s w => Returns tt (f s) w.
Definition call {W A} (f : W -> A * W) : M W A :=
  fun s w => let '(a, w') := f w in Returns a s w'.

Declare Scope py_scope.
Delimit Scope py_scope with py.
Notation "x <- m ;; k" := (bind m (fun x => k))
  (at level 20, m at level 99, k at level 200, only parsing) : py_scope.
Notation "m ;; k" := (bind m (fun _ => k))
  (at level 100, k at level 200, right associativity, only parsing) : py_scope.

(** [d[k]] read from one of the object's dictionaries. *)
Definition dict_get {W V} (d : WaterSimulator -> gmap string V) (k : string) : M W V :=
  fun s w => match d s !! k with
             | Some v => Returns v s w
             | None => Raises KeyError s w
             end.

(** [l[i]] read from a list with a non-negative index. *)
Definition list_get {W A} (l : list A) (i : nat) : M W A :=
  fun s w => match l !! i with
             | Some v => Returns v s w
             | None => Raises IndexError s w
             end.

(** [for x in xs: body(x)]. *)
Fixpoint for_each {W A} (xs : list A) (body : A -> M W unit) : M W unit :=
  match xs with
  | [] => ret tt
  | x :: xs' => (body x ;; for_each xs' body)%py
  end.

(** [enumerate(xs)]. *)
Definition enumerate {A} (xs : list A) : list (nat * A) := zip (seq 0 (length xs)) xs.

(** ** [WaterSimulator] (lines 69-178) *)

Section Engine.
Context {W : Type} `{Runtime W}.
Local Open Scope py_scope.

(** [__init__], lines 70-97.  Only the flow histories consult the random
    generator: one [uniform(8, 14)] draw per zone, in [ZONES] order.  The
    subscript [ZONE_BASE_PRESSURE[i]] is in range for every [i] that
    [enumerate(ZONES)] yields, the two lists having four entries each. *)
#[local] Instance Q_inhabited : Inhabited Q := populate 0%Q.

Definition init_pressure_hist (hl : nat) : gmap string deque :=
  foldl (fun m '(i, z) =>
           <[z := deque_new (replicate hl (ZONE_BASE_PRESSURE !!! i)) hl]> m)
        ∅ (enumerate ZONES).

Definition init_flow_hist (hl : nat) (w : W) : gmap string deque * W :=
  foldl (fun '(m, w) '(i, z) =>
           let '(u, w') := random_uniform 8 14 w in
           (<[z := deque_new (replicate hl (round u 2)) hl]> m, w'))
        (∅, w) (enumerate ZONES).

Definition __init__ (w : W) : WaterSimulator * W :=
  let hl := 120%nat in
  let '(fh, w') := init_flow_hist hl w in
  (Sim true 0 hl
       (list_to_map ((fun z => (z, false)) <$> ZONES))
       (list_to_map ((fun z => (z, None)) <$> ZONES))
       (init_pressure_hist hl) fh
       [] 0
       18.4%Q 0.0%Q 99.2%Q
       ["Running"; "Running"; "Standby"; "Running"]
       [true; true; false; true],
   w').

(** [_add_alert], lines 161-171. *)
Definition alert_message (zone : string) (atype : option string) : string :=
  let fallback := "Alert in " +:+ zone in
  match atype with
  | Some a =>
      if String.eqb a "leak" then "⚠ Possible leak detected in " +:+ zone
      else if String.eqb a "burst" then "🔴 Pipe burst alert in " +:+ zone +:+ "!"
      else if String.eqb a "low_pressure" then "⬇ Low pressure threshold crossed in " +:+ zone
      else fallback
  | None => fallback
  end.

Definition _add_alert (zone : string) (atype : option string) : M W unit :=
  modify (fun s => set_total_alerts (total_alerts s + 1) s) ;;
  let msg := alert_message zone atype in
  ts <- call datetime_now_strftime ;;
  modify (fun s => set_alerts ((ts, msg, atype) :: alerts s) s) ;;
  n <- gets (fun s => length (alerts s)) ;;
  if (50 <? n)%nat then modify (fun s => set_alerts (removelast (alerts s)) s)
  else ret tt.

(** [resolve_anomaly], lines 173-175: two subscript stores. *)
Definition resolve_anomaly (zone : string) : M W unit :=
  modify (fun s => set_anomaly_active (<[zone := false]> (anomaly_active s)) s) ;;
  modify (fun s => set_anomaly_type (<[zone := None]> (anomaly_type s)) s).

(** [toggle_valve], lines 177-178: a list subscript read, then a store at
    the same index. *)
Definition toggle_valve (zone_idx : Z) : M W unit :=
  vs <- gets valve_status ;;
  match index vs zone_idx with
  | None => raise IndexError
  | Some i =>
      v <- list_get vs i ;;
      modify (fun s => set_valve_status (<[i := negb v]> (valve_status s)) s)
  end.

(** The loop body of [step] in three blocks. *)

(** Lines 108-112: random anomaly injection.  [random.random()] is drawn
    only when the zone is not active ([and] short-circuits). *)
Definition inject_block (zone : string) : M W unit :=
  active <- dict_get anomaly_active zone ;;
  fire <- (if negb active
           then u <- call random_random ;; ret (Qltb u 0.003)
           else ret false) ;;
  if fire then
    modify (fun s => set_anomaly_active (<[zone := true]> (anomaly_active s)) s) ;;
    c <- call (random_choice ANOMALY_TYPES) ;;
    modify (fun s => set_anomaly_type (<[zone := Some c]> (anomaly_type s)) s) ;;
    atype <- dict_get anomaly_type zone ;;
    _add_alert zone atype
  else ret tt.

(** Lines 114-126: the pressure penalty of an active anomaly and the
    auto-resolve draw; the result is [anom_effect]. *)
Definition anom_effect_of (atype : option string) : Q :=
  match atype with
  | Some a =>
      if String.eqb a "leak" then (-0.4)%Q
      else if String.eqb a "burst" then (-0.9)%Q
      else if String.eqb a "low_pressure" then (-0.6)%Q
      else 0.0%Q
  | None => 0.0%Q
  end.

Definition effect_block (zone : string) : M W Q :=
  active <- dict_get anomaly_active zone ;;
  if active then
    atype <- dict_get anomaly_type zone ;;
    let anom_effect := anom_effect_of atype in
    u <- call random_random ;;
    (if Qltb u 0.035 then
       modify (fun s => set_anomaly_active (<[zone := false]> (anomaly_active s)) s) ;;
       modify (fun s => set_anomaly_type (<[zone := None]> (anomaly_type s)) s)
     else ret tt) ;;
    ret anom_effect
  else ret 0.0%Q.

(** Lines 128-132: the two samples and their append to the histories. *)
Definition hist_append (zone : string) (x : Q) (m : gmap string deque) : gmap string deque :=
  alter (fun d => deque_append d x) zone m.

Definition sample_block (zone : string) (base demand_wave noise anom_effect : Q) : M W unit :=
  let pressure := max 0.3 (base + demand_wave + noise + anom_effect) in
  u <- call (random_uniform 10 15) ;;
  let flow := max 0.5 ((pressure / base) * u) in
  _ <- dict_get pressure_hist zone ;;
  modify (fun s => set_pressure_hist (hist_append zone (round pressure 3) (pressure_hist s)) s) ;;
  _ <- dict_get flow_hist zone ;;
  modify (fun s => set_flow_hist (hist_append zone (round flow 2) (flow_hist s)) s).

Definition demand_wave (t : Z) : Q :=
  (0.3 * math_sin (inject_Z t / 20.0) + 0.1 * math_sin (inject_Z t / 7.0))%Q.

(** One iteration of [for i, zone in enumerate(ZONES)], lines 103-132. *)
Definition step_zone (t : Z) (i : nat) (zone : string) : M W unit :=
  base <- list_get ZONE_BASE_PRESSURE i ;;
  noise <- call (random_gauss 0 0.05) ;;
  inject_block zone ;;
  anom_effect <- effect_block zone ;;
  sample_block zone base (demand_wave t) noise anom_effect.

(** [sum(1 for z in ZONES if self.anomaly_active[z])]. *)
Fixpoint count_active (zs : list string) : M W Z :=
  match zs with
  | [] => ret 0%Z
  | z :: zs' =>
      a <- dict_get anomaly_active z ;;
      n <- count_active zs' ;;
      ret (if a : bool then (1 + n)%Z else n)
  end.

(** Lines 134-139: the slow metrics. *)
Definition step_metrics (t : Z) : M W unit :=
  if (t mod 10 =? 0)%Z then
    g <- call (random_gauss 0 0.3) ;;
    modify (fun s => set_nrw_percent (max 10 (min 35 (nrw_percent s + g))) s) ;;
    u <- call (random_uniform 0.05 0.12) ;;
    modify (fun s => set_energy_kwh (energy_kwh s + u) s) ;;
    active_anomalies <- count_active ZONES ;;
    modify (set_uptime_pct
              (if (active_anomalies =? 0)%Z then 100.0%Q
               else max 90.0 (100 - inject_Z active_anomalies * 2.5)))
  else ret tt.

(** [step], lines 99-139. *)
Definition step : M W unit :=
  modify (fun s => set_tick (tick s + 1) s) ;;
  t <- gets tick ;;
  for_each (enumerate ZONES) (fun '(i, zone) => step_zone t i zone) ;;
  step_metrics t.

(** [current_pressure] and [current_flow], lines 141-145: [list(d)[-1]]. *)
Definition deque_last (d : deque) : M W Q :=
  match last (items d) with
  | Some x => ret x
  | None => raise IndexError
  end.

Definition current_pressure (zone : string) : M W Q :=
  d <- dict_get pressure_hist zone ;; deque_last d.

Definition current_flow (zone : string) : M W Q :=
  d <- dict_get flow_hist zone ;; deque_last d.

(** [ZONES.index(zone)]: position of the first occurrence, or [ValueError]. *)
Fixpoint list_index (zs : list string) (zone : string) : option nat :=
  match zs with
  | [] => None
  | z :: zs' => if String.eqb z zone then Some 0%nat else S <$> list_index zs' zone
  end.

(** [zone_status], lines 147-159. *)
Definition zone_status (zone : string) : M W string :=
  p <- current_pressure zone ;;
  match list_index ZONES zone with
  | None => raise ValueError
  | Some i =>
      active <- dict_get anomaly_active zone ;;
      if active then
        atype <- dict_get anomaly_type zone ;;
        if bool_decide (atype = Some "burst") then ret "BURST"
        else if bool_decide (atype = Some "leak") then ret "LEAK"
        else ret "LOW"
      else
        min_ok <- list_get ZONE_MIN_OK i ;;
        if Qltb p min_ok then ret "LOW"
        else
          base <- list_get ZONE_BASE_PRESSURE i ;;
          if Qltb (base + 0.8) p then ret "HIGH"
          else ret "OK"
  end.

End Engine.

(** ** The application callbacks that drive the simulator *)

(** The part of [HydronautsApp] the simulation thread reads. *)
Record HydronautsApp := App { _sim_running : bool }.

Section Application.
Context {W : Type} `{Runtime W}.
Local Open Scope py_scope.

(** One pass of the [while True] loop of [_sim_loop], lines 745-747 (the
    [time.sleep] is not modelled). *)
Definition _sim_loop_pass (app : HydronautsApp) : M W unit :=
  if _sim_running app then step else ret tt.

(** [_toggle_sim], lines 771-778, without the widget updates. *)
Definition _toggle_sim (app : HydronautsApp) : HydronautsApp :=
  App (negb (_sim_running app)).

(** [_clear_alerts], lines 780-782: [SIM.alerts.clear()] then
    [SIM.total_alerts = 0]. *)
Definition _clear_alerts : M W unit :=
  modify (set_alerts []) ;;
  modify (set_total_alerts 0).

(** The commands the user interface sends to the simulator object. *)
Inductive command :=
| Resolve (zone : string)
| Toggle (zone_idx : Z)
| Clear.

Definition run_command (c : command) : M W unit :=
  match c with
  | Resolve zone => resolve_anomaly zone
  | Toggle zone_idx => toggle_valve zone_idx
  | Clear => _clear_alerts
  end.

(** The blocks a tick is made of: the counter increment, one loop iteration
    per zone, the metrics update. *)
Inductive block :=
| Begin
| Zone (t : Z) (i : nat) (zone : string)
| Metrics (t : Z).

Definition run_block (b : block) : M W unit :=
  match b with
  | Begin => modify (fun s => set_tick (tick s + 1) s)
  | Zone t i zone => step_zone t i zone
  | Metrics t => step_metrics t
  end.

Definition tick_blocks (t : Z) : list block :=
  ((fun '(i, zone) => Zone t i zone) <$> enumerate ZONES) ++ [Metrics t].

Definition valid_block (b : block) : Prop :=
  match b with
  | Zone _ i zone => (i, zone) ∈ enumerate ZONES
  | _ => True
  end.

(** The object as a call left it, whether it returned or raised. *)
Definition final {A} (o : outcome W A) : WaterSimulator :=
  match o with
  | Returns _ s _ => s
  | Raises _ s _ => s
  end.

Definition world {A} (o : outcome W A) : W :=
  match o with
  | Returns _ _ w => w
  | Raises _ _ w => w
  end.

(** Whether a call returned, rather than raised. *)
Definition returned {A} (o : outcome W A) : bool :=
  match o with
  | Returns _ _ _ => true
  | Raises _ _ _ => false
  end.

(** The states the simulator object passes through: the one [__init__]
    builds, and those left by a command or by a block of a tick, whatever
    the outside world supplies.  States between two blocks of a tick are
    included; a whole [step] is a sequence of blocks. *)
Inductive reachable : WaterSimulator -> Prop :=
| reach_init w :
    reachable (__init__ w).1
| reach_command s c w :
    reachable s -> reachable (final (run_command c s w))
| reach_block s b w :
    reachable s -> valid_block b -> reachable (final (run_block b s w)).

(** A command issued from the interface thread: an exception it raises
    propagates to its caller, not to the simulation thread. *)
Definition deliver (c : command) : M W unit :=
  fun s w => Returns tt (final (run_command c s w)) (world (run_command c s w)).

(** [step] with a command delivered after the first [k] blocks of the
    tick.  No lock guards [SIM]: [_sim_loop] runs [SIM.step()] on its own
    thread while the interface callbacks call into [SIM] directly. *)
Definition step_interleaved (k : nat) (c : command) : M W unit :=
  modify (fun s => set_tick (tick s + 1) s) ;;
  t <- gets tick ;;
  for_each (take k (tick_blocks t)) run_block ;;
  deliver c ;;
  for_each (drop k (tick_blocks t)) run_block.

(** The statements of a command in program order: [resolve_anomaly]
    (lines 174-175) and [_clear_alerts] (lines 781-782) are two stores
    each, [toggle_valve] (line 178) is one statement. *)
Definition command_statements (c : command) : list (M W unit) :=
  match c with
  | Resolve zone =>
      [modify (fun s => set_anomaly_active (<[zone := false]> (anomaly_active s)) s);
       modify (fun s => set_anomaly_type (<[zone := None]> (anomaly_type s)) s)]
  | Toggle zone_idx => [toggle_valve zone_idx]
  | Clear => [modify (set_alerts []); modify (set_total_alerts 0)]
  end.

(** A command of the interface thread with one block of the tick run by
    the simulation thread between its first statement and the rest. *)
Definition command_split (c : command) (b : block) : M W unit :=
  match command_statements c with
  | [] => run_block b
  | st :: rest => st ;; run_block b ;; for_each rest (fun st' => st')
  end.

(** One pass of [_sim_loop] with the key press of [_toggle_sim] handled by
    the interface thread after the first [k] blocks of the tick.  Line 746
    reads [_sim_running] once, before the call of [step], and [step] does
    not read it.  The result is the application object the key press
    leaves and the outcome of the pass. *)
Definition pass_with_toggle (k : nat) (app : HydronautsApp)
    (s : WaterSimulator) (w : W) : HydronautsApp * outcome W unit :=
  if _sim_running app then
    match (modify (fun s => set_tick (tick s + 1) s) ;;
           t <- gets tick ;;
           for_each (take k (tick_blocks t)) run_block ;;
           ret t) s w with
    | Returns t s1 w1 =>
        (_toggle_sim app, for_each (drop k (tick_blocks t)) run_block s1 w1)
    | Raises e s1 w1 => (_toggle_sim app, Raises e s1 w1)
    end
  else (_toggle_sim app, Returns tt s w).

(** [n] consecutive ticks. *)
Fixpoint run_ticks (n : nat) : M W unit :=
  match n with
  | O => ret tt
  | S n' => step ;; run_ticks n'
  end.

End Application.

(** ** Computations that neither read nor write the valve flags *)

Section Valves.
Context {W : Type}.

Definition lift_valves {A} (v : list bool) (o : outcome W A) : outcome W A :=
  match o with
  | Returns a s w => Returns a (set_valve_status v s) w
  | Raises e s w => Raises e (set_valve_status v s) w
  end.

Definition valve_blind {A} (m : M W A) : Prop :=
  forall v s w, m (set_valve_status v s) w = lift_valves v (m s w).

(** [toggle_valve] as a function of the valve flags alone; an index out
    of range leaves them as they are. *)
Definition toggled (idx : Z) (vs : list bool) : list bool :=
  match index vs idx with
  | Some i => match vs !! i with Some v => <[i := negb v]> vs | None => vs end
  | None => vs
  end.

End Valves.

(** ** Properties of states *)

(** The flag and the type of a zone agree: both absent, flag off with type
    [None], or flag on with one of the three anomaly types. *)
Definition coherent_at (a : option bool) (ty : option (option string)) : Prop :=
  match a, ty with
  | None, None => True
  | Some false, Some None => True
  | Some true, Some (Some k) => k ∈ ANOMALY_TYPES
  | _, _ => False
  end.

Definition full_history (m : gmap string deque) (zone : string) : Prop :=
  exists d, m !! zone = Some d /\ length (items d) = 120%nat /\ maxlen d = 120%nat.

Record Inv (s : WaterSimulator) : Prop := {
  inv_coherent : forall z, coherent_at (anomaly_active s !! z) (anomaly_type s !! z);
  inv_zones : forall z, z ∈ ZONES -> is_Some (anomaly_active s !! z);
  inv_pressure : forall z, z ∈ ZONES -> full_history (pressure_hist s) z;
  inv_flow : forall z, z ∈ ZONES -> full_history (flow_hist s) z;
  inv_alerts : (length (alerts s) <= 50)%nat;
  inv_nrw : (10 <= nrw_percent s <= 35)%Q;
  inv_uptime : (90 <= uptime_pct s <= 100)%Q;
  inv_valves : length (valve_status s) = 4%nat
}.

(** The states after the three ways a zone iteration changes the object. *)
Definition alerted (zone : string) (atype : option string) (ts : string)
    (s : WaterSimulator) : WaterSimulator :=
  let l := (ts, alert_message zone atype, atype) :: alerts s in
  set_alerts (if (50 <? length l)%nat then removelast l else l)
    (set_total_alerts (total_alerts s + 1) s).

Definition injected (zone c ts : string) (s : WaterSimulator) : WaterSimulator :=
  alerted zone (Some c) ts
    (set_anomaly_type (<[zone := Some c]> (anomaly_type s))
       (set_anomaly_active (<[zone := true]> (anomaly_active s)) s)).

Definition resolved (zone : string) (s : WaterSimulator) : WaterSimulator :=
  set_anomaly_type (<[zone := None]> (anomaly_type s))
    (set_anomaly_active (<[zone := false]> (anomaly_active s)) s).

Definition sampled (zone : string) (p f : Q) (s : WaterSimulator) : WaterSimulator :=
  set_flow_hist (hist_append zone f (flow_hist s))
    (set_pressure_hist (hist_append zone p (pressure_hist s)) s).

(** Number of zones whose flag is on. *)
Definition active_count (s : WaterSimulator) : Z :=
  Z.of_nat (length (filter (fun z => anomaly_active s !! z = Some true) ZONES)).

Definition uptime_of (active_anomalies : Z) : Q :=
  if (active_anomalies =? 0)%Z then 100.0%Q
  else max 90.0 (100 - inject_Z active_anomalies * 2.5).

(** ** A tick as a relation between states

    What each block of [step] can do to the object, with the draws of the
    outside world existentially quantified. *)

Inductive inject_rel (zone : string) (s : WaterSimulator) : WaterSimulator -> Prop :=
| inject_none :
    inject_rel zone s s
| inject_fire c ts :
    anomaly_active s !! zone = Some false ->
    c ∈ ANOMALY_TYPES ->
    inject_rel zone s (injected zone c ts s).

Inductive effect_rel (zone : string) (s : WaterSimulator) : WaterSimulator -> Prop :=
| effect_keep :
    effect_rel zone s s
| effect_resolve :
    anomaly_active s !! zone = Some true ->
    effect_rel zone s (resolved zone s).

Inductive zone_rel (zone : string) (s : WaterSimulator) : WaterSimulator -> Prop :=
| zone_rel_intro s1 s2 p f :
    inject_rel zone s s1 ->
    effect_rel zone s1 s2 ->
    (0.3 <= p)%Q -> (0.5 <= f)%Q ->
    zone_rel zone s (sampled zone p f s2).

Inductive zones_rel : list string -> WaterSimulator -> WaterSimulator -> Prop :=
| zones_nil s :
    zones_rel [] s s
| zones_cons z zs s s1 s' :
    zone_rel z s s1 -> zones_rel zs s1 s' -> zones_rel (z :: zs) s s'.

Inductive metrics_rel (t : Z) (s : WaterSimulator) : WaterSimulator -> Prop :=
| metrics_skip :
    (t mod 10)%Z <> 0%Z ->
    metrics_rel t s s
| metrics_update g u :
    (t mod 10)%Z = 0%Z ->
    (0.05 <= u <= 0.12)%Q ->
    metrics_rel t s
      (set_uptime_pct (uptime_of (active_count s))
         (set_energy_kwh (energy_kwh s + u)
            (set_nrw_percent (max 10 (min 35 (nrw_percent s + g))) s))).

Definition step_rel (s s' : WaterSimulator) : Prop :=
  exists s4,
    zones_rel ZONES (set_tick (tick s + 1) s) s4 /\
    metrics_rel (tick s + 1) s4 s'.

(** ** Zone status as the specification words it *)

Inductive Anomaly := NoAnomaly | Leak | Burst | LowPressure.

Definition anomaly_of (ty : option (option string)) : Anomaly :=
  match ty with
  | Some (Some a) =>
      if String.eqb a "leak" then Leak
      else if String.eqb a "burst" then Burst
      else if String.eqb a "low_pressure" then LowPressure
      else NoAnomaly
  | _ => NoAnomaly
  end.

Definition zone_status_spec (anomaly : Anomaly) (pressure minOkPressure basePressure : Q) : string :=
  match anomaly with
  | Burst => "BURST"
  | Leak => "LEAK"
  | LowPressure => "LOW"
  | NoAnomaly =>
      if Qltb pressure minOkPressure then "LOW"
      else if Qltb (basePressure + 0.8) pressure then "HIGH"
      else "OK"
  end.

(** ** A replayable runtime

    The outside world as a tape of integers: every random draw consumes one
    entry (an exhausted tape yields zeros), the clock always reads noon and
    the sine is flat.  It makes the model executable on concrete inputs. *)

Module Tape.

Definition pop (w : list Z) : Z * list Z :=
  match w with
  | [] => (0%Z, [])
  | n :: w' => (n, w')
  end.

Definition unit_fraction (n : Z) : Q := (n mod 1000)%Z # 1000.

Definition random (w : list Z) : Q * list Z :=
  let '(n, w') := pop w in (unit_fraction n, w').

Definition gauss (mu sigma : Q) (w : list Z) : Q * list Z :=
  let '(n, w') := pop w in ((mu + sigma * (n # 100))%Q, w').

Definition uniform (a b : Q) (w : list Z) : Q * list Z :=
  let '(n, w') := pop w in ((a + (b - a) * unit_fraction n)%Q, w').

Definition choice (l : list string) (w : list Z) : string * list Z :=
  let '(n, w') := pop w in
  (nth (Z.to_nat (n mod Z.of_nat (length l))) l (hd "" l), w').

Definition strftime (w : list Z) : string * list Z := ("12:00:00", w).

#[export] Instance runtime : Runtime (list Z).
Proof.
  refine {| random_random := random;
            random_gauss := gauss;
            random_uniform := uniform;
            random_choice := choice;
            datetime_now_strftime := strftime;
            math_sin := fun _ => 0%Q |}.
  - intros a b w Hab. unfold uniform. destruct (pop w) as [n w']; simpl.
    assert (0 <= unit_fraction n <= 1)%Q as [H0 H1].
    { unfold unit_fraction, Qle; simpl.
      pose proof (Z.mod_pos_bound n 1000 eq_refl). lia. }
    split; nra.
  - intros l w Hl. unfold choice. destruct (pop w) as [n w']; simpl.
    apply list_elem_of_In, nth_In.
    destruct l as [|x l]; [done|].
    pose proof (Z.mod_pos_bound n (Z.of_nat (length (x :: l)))) as Hb.
    simpl length in *. lia.
Defined.

End Tape.

(** ** Concrete inputs *)

(** The simulator [__init__] builds when every start-up draw is the lower
    end of its range. *)
Definition sim0 : WaterSimulator := (__init__ (H := Tape.runtime) []).1.

(** A tape on which zones A and B are injected (and not auto-resolved) and
    zones C and D are not. *)
Definition two_injections : list Z :=
  [0; 0; 0; 500; 0;  0; 0; 1; 500; 0;  0; 500; 0;  0; 500; 0]%Z.

Definition zoneA : string := "Zone A (Central)".

(** The state after one tick in which zones A and B were injected. *)
Definition sim1 : WaterSimulator := final (step (H := Tape.runtime) sim0 two_injections).

(** The draws of a tick in which no zone is injected and none recovers:
    per zone the noise, one [random.random()] of 0.5 and the flow factor. *)
Definition quiet_tick : list Z :=
  [0; 500; 0;  0; 500; 0;  0; 500; 0;  0; 500; 0]%Z.

(** The state eight quiet ticks later: the tick count is 9 and zones A and
    B are still flagged, so the next tick updates the metrics. *)
Definition sim9 : WaterSimulator :=
  final (run_ticks (H := Tape.runtime) 8 sim1 (mjoin (replicate 8 quiet_tick))).

Definition zoneC : string := "Zone C (Elevated)".

(** The draws of an iteration in which a flagged-off zone is injected and
    does not recover. *)
Definition injecting_iteration : list Z := [0; 0; 0; 500; 0]%Z.

(** [_clear_alerts] from [sim1] with the iteration of zone C, which injects
    it, between the two stores. *)
Definition clear_split_run : outcome (list Z) unit :=
  command_split (H := Tape.runtime) Clear (Zone 2 2 zoneC) sim1 injecting_iteration.

(** [resolve_anomaly] of the leaking zone A from [sim1] with the iteration
    of zone A, which injects it again, between the two stores. *)
Definition resolve_split_run : outcome (list Z) unit :=
  command_split (H := Tape.runtime) (Resolve zoneA) (Zone 2 0 zoneA) sim1
    injecting_iteration.

(** ** The presentation layer of [app.py]

    The helpers and the [refresh]/[update] methods of the widgets, as
    functions from the simulator object to the values they hand to the
    toolkit.  A widget is modelled by what it is configured to show; the
    toolkit calls themselves ([config], [insert], [pack]) have no model.
    [format_f n x] stands for the float formatting [f"{x:.nf}"]. *)

(** ** The colour palette [C] (lines 40-58) *)

Module C.
Definition bg : string := "#0A1628".
Definition panel : string := "#0E1F3D".
Definition surface : string := "#132644".
Definition border : string := "#1E3A5F".
Definition teal : string := "#00D4FF".
Definition teal2 : string := "#00A8CC".
Definition green : string := "#00E676".
Definition amber : string := "#FFB300".
Definition red : string := "#FF3D3D".
Definition text : string := "#E8F4F8".
Definition muted : string := "#6B8FAD".
Definition white : string := "#FFFFFF".
Definition chart_bg : string := "#0B1A2E".
Definition zone_a : string := "#00D4FF".
Definition zone_b : string := "#00E676".
Definition zone_c : string := "#FFB300".
Definition zone_d : string := "#FF6B6B".
End C.

Definition ZONE_COLORS : list string := [C.zone_a; C.zone_b; C.zone_c; C.zone_d].

(** ** Helpers (lines 188-195) *)

(** [status_color]: a dictionary [get] with [C["muted"]] as default. *)
Definition status_color (status : string) : string :=
  if String.eqb status "OK" then C.green
  else if String.eqb status "LOW" then C.amber
  else if String.eqb status "HIGH" then C.red
  else if String.eqb status "LEAK" then C.amber
  else if String.eqb status "BURST" then C.red
  else C.muted.

Definition pressure_bar_color (pressure min_ok base : Q) : string :=
  if Qltb pressure min_ok then C.red
  else if Qltb (base + 0.7) pressure then C.amber
  else C.green.

(** [int(x)] of a float: truncation towards zero. *)
Definition int (x : Q) : Z := if Qltb x 0 then Qceiling x else Qfloor x.

(** ** [PulsingDot._animate] (lines 291-303)

    One frame: the new pulse counter, the bounding box of the glow ring and
    the bounding box of the solid dot. *)
Definition PulsingDot_animate (size _pulse : Z) : Z * (Z * Z * Z * Z) * (Z * Z * Z * Z) :=
  let _pulse := ((_pulse + 1) mod 20)%Z in
  let alpha := (Qabs (inject_Z (10 - _pulse)) / 10.0)%Q in
  let r := int (inject_Z size * (0.4 + 0.15 * alpha)) in
  let c := (size / 2)%Z in
  (_pulse,
   (c - r - 2, c - r - 2, c + r + 2, c + r + 2)%Z,
   (c - 5, c - 5, c + 5, c + 5)%Z).

(** ** Widgets that read the simulator *)

(** [ZoneCard]: the attributes [__init__] sets (lines 315-317). *)
Record ZoneCard := Card { zone_idx : nat; zone : string; zcolor : string }.

(** What [ZoneCard.update] configures its widgets with. *)
Record ZoneCardView := CardView {
  gauge_value : Q;
  gauge_color : string;
  dot_color : string;
  status_text : string;
  status_fg : string;
  press_text : string;
  press_fg : string;
  flow_text : string;
  resolve_visible : bool;
  valve_text : string;
  valve_bg : string
}.

(** What [AIPanel.refresh] configures one row with. *)
Record AIRow := Row {
  bar_bg : string;
  bar_width : Z;
  type_text : string;
  type_fg : string
}.

(** What [_refresh_ui] has put on the screen when it returns. *)
Record Dashboard := Screen {
  card_views : list ZoneCardView;
  kpi_labels : gmap string (string * string);
  chart_lines : list (list Z * list Q);
  alert_rows : list (string * string);
  alert_count : string;
  ai_rows : list AIRow;
  status_bar : string
}.

Section Presentation.
Context {W : Type} `{Runtime W}.
Variable format_f : nat -> Q -> string.
Local Open Scope py_scope.

(** [ZoneCard.__init__], lines 311-318: [ZONES[zone_idx]] and
    [ZONE_COLORS[zone_idx]]; [None] stands for [IndexError]. *)
Definition ZoneCard_init (zone_idx : nat) : option ZoneCard :=
  match ZONES !! zone_idx, ZONE_COLORS !! zone_idx with
  | Some z, Some c => Some (Card zone_idx z c)
  | _, _ => None
  end.

(** The cards [_build_ui] creates, lines 658-665. *)
Definition zone_cards : list ZoneCard :=
  omap (fun '(i, _) => ZoneCard_init i) (enumerate ZONES).

(** [ZoneCard.update], lines 369-392. *)
Definition ZoneCard_update (card : ZoneCard) : M W ZoneCardView :=
  p <- current_pressure (zone card) ;;
  f <- current_flow (zone card) ;;
  status <- zone_status (zone card) ;;
  let sc := status_color status in
  let i := zone_idx card in
  min_ok <- list_get ZONE_MIN_OK i ;;
  base <- list_get ZONE_BASE_PRESSURE i ;;
  let color := pressure_bar_color p min_ok base in
  active <- dict_get anomaly_active (zone card) ;;
  vs <- gets valve_status ;;
  v <- list_get vs (zone_idx card) ;;
  ret (CardView p color sc
         ("● " +:+ status) sc
         ("P: " +:+ format_f 2 p +:+ " bar") color
         ("F: " +:+ format_f 1 f +:+ " L/s")
         active
         (if v : bool then "OPEN" else "CLOSED")
         (if v : bool then C.green else C.red)).

(** [ZoneCard._resolve] and [ZoneCard._toggle_valve], lines 394-398. *)
Definition ZoneCard_resolve (card : ZoneCard) : M W unit :=
  resolve_anomaly (zone card).

Definition ZoneCard_toggle_valve (card : ZoneCard) : M W unit :=
  toggle_valve (Z.of_nat (zone_idx card)).

(** [ChartPanel.refresh], lines 444-457: the data of each line.  [nlines]
    is the length of [self.lines]. *)
Fixpoint chart_data (x : list Z) (i n : nat) : M W (list (list Z * list Q)) :=
  match n with
  | O => ret []
  | S n' =>
      zone <- list_get ZONES i ;;
      d <- dict_get pressure_hist zone ;;
      rest <- chart_data x (S i) n' ;;
      ret ((x, items d) :: rest)
  end.

Definition ChartPanel_refresh (HAS_MPL : bool) (nlines : nat) : M W (list (list Z * list Q)) :=
  if negb HAS_MPL then ret []
  else
    hl <- gets history_len ;;
    chart_data (Z.of_nat <$> seq 0 hl) 0 nlines.

(** [AlertPanel.refresh], lines 493-499: the rows of the list box (text and
    colour) and the text of the counter. *)
Definition alert_row (a : alert) : string * string :=
  let '(ts, msg, atype) := a in
  ("  " +:+ ts +:+ "  " +:+ msg,
   if bool_decide (atype = Some "burst") then C.red else C.amber).

Definition AlertPanel_refresh : M W (list (string * string) * string) :=
  al <- gets alerts ;;
  total <- gets total_alerts ;;
  ret (alert_row <$> al, pretty total +:+ " alerts").

(** [KPIStrip.__init__], lines 507-528: each title with the text and the
    colour of its label. *)
Definition KPIStrip_init : gmap string (string * string) :=
  list_to_map
    [("💧 Total Zones", ("4", C.teal));
     ("📊 NRW %", ("18.4%", C.amber));
     ("⚡ Energy Used", ("0.0 kWh", C.green));
     ("🟢 Uptime", ("99.2%", C.green));
     ("🔔 Total Alerts", ("0", C.red));
     ("🕒 Last Update", ("--:--:--", C.muted))].

(** [KPIStrip.refresh], lines 530-545. *)
Definition KPIStrip_refresh (labels : gmap string (string * string)) :
    M W (gmap string (string * string)) :=
  now <- call datetime_now_strftime ;;
  s <- gets id ;;
  let updates :=
    [("📊 NRW %",
      (format_f 1 (nrw_percent s) +:+ "%",
       if Qltb 25 (nrw_percent s) then C.red else C.amber));
     ("⚡ Energy Used", (format_f 1 (energy_kwh s) +:+ " kWh", C.green));
     ("🟢 Uptime",
      (format_f 1 (uptime_pct s) +:+ "%",
       if Qltb 97 (uptime_pct s) then C.green else C.amber));
     ("🔔 Total Alerts",
      (pretty (total_alerts s),
       if (0 <? total_alerts s)%Z then C.red else C.green));
     ("🕒 Last Update", (now, C.muted))] in
  ret (foldl (fun labels '(key, label) =>
                if bool_decide (is_Some (labels !! key))
                then <[key := label]> labels else labels)
             labels updates).

(** [AIPanel.refresh], lines 587-609, for one zone.  [winfo_width] is the
    width the toolkit reports for the row's bar frame. *)
Definition ai_label (atype : option string) : string :=
  match atype with
  | Some a =>
      if String.eqb a "leak" then "⚠ Leak"
      else if String.eqb a "burst" then "🔴 BURST!"
      else if String.eqb a "low_pressure" then "⬇ Low P"
      else "Alert"
  | None => "Alert"
  end.

Definition AIPanel_row (winfo_width : Z) (z : string) : M W AIRow :=
  p <- current_pressure z ;;
  match list_index ZONES z with
  | None => raise ValueError
  | Some i =>
      base <- list_get ZONE_BASE_PRESSURE i ;;
      let deviation := (Qabs (p - base) / base)%Q in
      let score := min 1.0 (deviation * 3) in
      let width := if (1 <? winfo_width)%Z
                   then int (inject_Z winfo_width * score)
                   else int (180 * score) in
      active <- dict_get anomaly_active z ;;
      cl <- (if active then
               atype <- dict_get anomaly_type z ;;
               ret (if bool_decide (atype = Some "burst") then C.red else C.amber,
                    ai_label atype)
             else if Qltb 0.5 score then ret (C.amber, "Elevated")
             else ret (C.green, "Normal")) ;;
      ret (Row cl.1 (Z.max 2 width) cl.2 cl.1)
  end.

Fixpoint AIPanel_rows (winfo_width : string -> Z) (zs : list string) : M W (list AIRow) :=
  match zs with
  | [] => ret []
  | z :: zs' =>
      r <- AIPanel_row (winfo_width z) z ;;
      rs <- AIPanel_rows winfo_width zs' ;;
      ret (r :: rs)
  end.

Definition AIPanel_refresh (winfo_width : string -> Z) : M W (list AIRow) :=
  AIPanel_rows winfo_width ZONES.

(** [_refresh_ui], lines 750-759, without the rescheduling [after]. *)
Fixpoint update_cards (cards : list ZoneCard) : M W (list ZoneCardView) :=
  match cards with
  | [] => ret []
  | card :: cards' =>
      v <- ZoneCard_update card ;;
      vs <- update_cards cards' ;;
      ret (v :: vs)
  end.

Definition _refresh_ui (app : HydronautsApp) (cards : list ZoneCard)
    (labels : gmap string (string * string)) (HAS_MPL : bool) (nlines : nat)
    (winfo_width : string -> Z) : M W Dashboard :=
  views <- update_cards cards ;;
  labels' <- KPIStrip_refresh labels ;;
  chart <- ChartPanel_refresh HAS_MPL nlines ;;
  al <- AlertPanel_refresh ;;
  ai <- AIPanel_refresh winfo_width ;;
  let state := if _sim_running app then "LIVE" else "PAUSED" in
  now <- call datetime_now_strftime ;;
  total <- gets total_alerts ;;
  ret (Screen views labels' chart al.1 al.2 ai
         (now +:+ " · " +:+ state +:+ " · Alerts " +:+ pretty total)).

End Presentation.

(** ** Commands as the interface issues them *)

Section Interface.
Context {W : Type} `{Runtime W}.

(** What a button or a key press of the running application can do to the
    simulator: resolve or toggle through one of the four cards, or clear
    the alerts. *)
Inductive ui_command :=
| CardResolve (card : ZoneCard)
| CardToggle (card : ZoneCard)
| ClearAlerts.

Definition run_ui_command (c : ui_command) : M W unit :=
  match c with
  | CardResolve card => ZoneCard_resolve card
  | CardToggle card => ZoneCard_toggle_valve card
  | ClearAlerts => _clear_alerts
  end.

Definition valid_ui_command (c : ui_command) : Prop :=
  match c with
  | CardResolve card | CardToggle card => card ∈ zone_cards
  | ClearAlerts => True
  end.

(** The states of the running application: only the tick's blocks and the
    interface's own commands act on the simulator. *)
Inductive ui_reachable : WaterSimulator -> Prop :=
| ui_init w :
    ui_reachable (__init__ w).1
| ui_command_step s c w :
    ui_reachable s -> valid_ui_command c -> ui_reachable (final (run_ui_command c s w))
| ui_block_step s b w :
    ui_reachable s -> valid_block b -> ui_reachable (final (run_block b s w)).

End Interface.

(** ** Further properties of states *)

(** Every stored sample respects its floor, the alert counter covers the
    log, the history dictionaries have no key outside [ZONES], and every
    logged alert carries one of the three anomaly types with the message
    built for a configured zone. *)
Definition well_formed_alert (a : alert) : Prop :=
  exists zone k, zone ∈ ZONES /\ k ∈ ANOMALY_TYPES /\
    a.1.2 = alert_message zone (Some k) /\ a.2 = Some k.

Record Inv2 (s : WaterSimulator) : Prop := {
  inv_pressure_floor : forall z d,
    pressure_hist s !! z = Some d -> Forall (fun x => (0.3 <= x)%Q) (items d);
  inv_flow_floor : forall z d,
    flow_hist s !! z = Some d -> Forall (fun x => (0.5 <= x)%Q) (items d);
  inv_counter : (Z.of_nat (length (alerts s)) <= total_alerts s)%Z;
  inv_pressure_keys : forall z, is_Some (pressure_hist s !! z) -> z ∈ ZONES;
  inv_flow_keys : forall z, is_Some (flow_hist s !! z) -> z ∈ ZONES;
  inv_alert_entries : Forall well_formed_alert (alerts s);
  inv_history_len : history_len s = 120%nat
}.

(** ** Concrete inputs for the presentation layer *)

(** The card [_build_ui] creates for zone A. *)
Definition cardA : ZoneCard := Card 0 zoneA C.zone_a.

(** The alert zone B's burst leaves in the log of [sim1]. *)
Definition burst_alert : alert :=
  ("12:00:00", "🔴 Pipe burst alert in Zone B (North)!", Some "burst").

(** A stand-in for the float formatting: the integer part only. *)
Definition plain_format (ndigits : nat) (x : Q) : string := pretty (Qfloor x).

(** * Proofs *)

(** ** Facts about the Python built-ins *)

Lemma Qltb_lt a b : Qltb a b = true <-> (a < b)%Q.
Proof.
  unfold Qltb. rewrite negb_true_iff, <- not_true_iff_false, Qle_bool_iff.
  split; [apply Qnot_le_lt | apply Qlt_not_le].
Qed.

Lemma Qltb_ge a b : Qltb a b = false <-> (b <= a)%Q.
Proof. unfold Qltb. rewrite negb_false_iff. apply Qle_bool_iff. Qed.

Lemma max_lb_l a b : (a <= max a b)%Q.
Proof.
  unfold max. destruct (Qltb a b) eqn:E; [|lra].
  apply Qltb_lt in E. lra.
Qed.

Lemma max_ub a b c : (a <= c)%Q -> (b <= c)%Q -> (max a b <= c)%Q.
Proof. unfold max. by destruct (Qltb a b). Qed.

Lemma min_ub_l a b : (min a b <= a)%Q.
Proof.
  unfold min. destruct (Qltb b a) eqn:E; [|lra].
  apply Qltb_lt in E. lra.
Qed.

Lemma clamp_range lo hi x : (lo <= hi)%Q -> (lo <= max lo (min hi x) <= hi)%Q.
Proof.
  intros. split; [apply max_lb_l|].
  apply max_ub; [done | apply min_ub_l].
Qed.

Lemma scale_pos n : (0 < inject_Z (10 ^ Z.of_nat n))%Q.
Proof.
  rewrite <- (Zlt_Qlt 0). apply Z.pow_pos_nonneg; lia.
Qed.

Lemma round_choice_bounds (y : Q) :
  let f := Qfloor y in
  let r := (y - inject_Z f)%Q in
  let n := if Qltb r (1 # 2) then f
           else if Qltb (1 # 2) r then (f + 1)%Z
           else if Z.even f then f else (f + 1)%Z in
  (f <= n <= f + 1)%Z /\ ((y == inject_Z f)%Q -> n = f).
Proof.
  intros f r n. split.
  - subst n. repeat case_match; lia.
  - intros Hy. subst n.
    assert (Hr : Qltb r (1 # 2) = true).
    { apply Qltb_lt. unfold r. rewrite Hy. lra. }
    by rewrite Hr.
Qed.

(** Rounding never crosses a grid point: a multiple of [10^-n] below [x]
    stays below [round x n], and one above stays above. *)
Lemma round_ge (k : Z) x n :
  (inject_Z k / inject_Z (10 ^ Z.of_nat n) <= x)%Q ->
  (inject_Z k / inject_Z (10 ^ Z.of_nat n) <= round x n)%Q.
Proof.
  intros Hk. pose proof (scale_pos n) as Hs. unfold round.
  set (sc := inject_Z (10 ^ Z.of_nat n)) in *.
  set (y := (x * sc)%Q).
  destruct (round_choice_bounds y) as [[Hn _] _].
  set (m := if Qltb _ _ then _ else _) in *.
  assert (Hy : (inject_Z k <= y)%Q).
  { unfold y. apply (Qmult_le_compat_r _ _ sc) in Hk; [|lra].
    assert ((inject_Z k / sc * sc == inject_Z k)%Q) as E by (field; lra).
    by rewrite E in Hk. }
  apply Qfloor_resp_le in Hy. rewrite Qfloor_Z in Hy.
  unfold Qdiv. apply Qmult_le_compat_r.
  - rewrite <- Zle_Qle. lia.
  - apply Qinv_le_0_compat. lra.
Qed.

Lemma round_le (k : Z) x n :
  (x <= inject_Z k / inject_Z (10 ^ Z.of_nat n))%Q ->
  (round x n <= inject_Z k / inject_Z (10 ^ Z.of_nat n))%Q.
Proof.
  intros Hk. pose proof (scale_pos n) as Hs. unfold round.
  set (sc := inject_Z (10 ^ Z.of_nat n)) in *.
  set (y := (x * sc)%Q).
  destruct (round_choice_bounds y) as [[_ Hn] Heq].
  set (m := if Qltb _ _ then _ else _) in *.
  assert (Hy : (y <= inject_Z k)%Q).
  { unfold y. apply (Qmult_le_compat_r _ _ sc) in Hk; [|lra].
    assert ((inject_Z k / sc * sc == inject_Z k)%Q) as E by (field; lra).
    by rewrite E in Hk. }
  assert (Hm : (m <= k)%Z).
  { pose proof (Qfloor_resp_le _ _ Hy) as Hf. rewrite Qfloor_Z in Hf.
    destruct (Z.eq_dec (Qfloor y) k) as [E|E]; [|lia].
    rewrite Heq; [lia|].
    apply Qle_antisym; [|apply Qfloor_le]. by rewrite E. }
  unfold Qdiv. apply Qmult_le_compat_r.
  - rewrite <- Zle_Qle. lia.
  - apply Qinv_le_0_compat. lra.
Qed.

Lemma round_pressure_floor x : (0.3 <= x)%Q -> (0.3 <= round x 3)%Q.
Proof.
  intros Hx. assert (E : (0.3 == inject_Z 300 / inject_Z (10 ^ Z.of_nat 3))%Q) by reflexivity.
  rewrite E in *. by apply round_ge.
Qed.

Lemma round_flow_floor x : (0.5 <= x)%Q -> (0.5 <= round x 2)%Q.
Proof.
  intros Hx. assert (E : (0.5 == inject_Z 50 / inject_Z (10 ^ Z.of_nat 2))%Q) by reflexivity.
  rewrite E in *. by apply round_ge.
Qed.

Lemma deque_append_full d x :
  length (items d) = maxlen d -> (0 < maxlen d)%nat ->
  items (deque_append d x) = drop 1 (items d) ++ [x] /\
  maxlen (deque_append d x) = maxlen d.
Proof.
  intros Hl Hm. unfold deque_append; simpl. split; [|done].
  rewrite length_app; simpl.
  destruct (Nat.ltb_spec (maxlen d) (length (items d) + 1)) as [_|?]; [|lia].
  destruct (items d); simpl in *; [lia|done].
Qed.

Lemma deque_append_length d x :
  length (items d) = maxlen d -> (0 < maxlen d)%nat ->
  length (items (deque_append d x)) = maxlen d.
Proof.
  intros Hl Hm. destruct (deque_append_full d x Hl Hm) as [-> _].
  rewrite length_app, length_drop; simpl. lia.
Qed.

(** ** Symbolic execution of the methods *)

Section Execution.
Context {W : Type} `{Runtime W}.

Lemma bind_returns {A B} (m : M W A) (k : A -> M W B) s w a s1 w1 :
  m s w = Returns a s1 w1 -> bind m k s w = k a s1 w1.
Proof. unfold bind. by intros ->. Qed.

Lemma _add_alert_exec zone atype s w :
  _add_alert zone atype s w =
  Returns tt (alerted zone atype (datetime_now_strftime w).1 s)
          (datetime_now_strftime w).2.
Proof.
  unfold _add_alert, bind, modify, call, gets, ret, alerted.
  destruct (datetime_now_strftime w) as [ts w']; simpl.
  by destruct (_ <? _)%nat.
Qed.

Lemma resolve_anomaly_exec zone s w :
  resolve_anomaly (W:=W) zone s w = Returns tt (resolved zone s) w.
Proof. reflexivity. Qed.

Lemma _clear_alerts_exec s w :
  _clear_alerts (W:=W) s w = Returns tt (set_total_alerts 0 (set_alerts [] s)) w.
Proof. reflexivity. Qed.

Lemma inject_block_exec (z : string) (s : WaterSimulator) (w : W) (b : bool) :
  anomaly_active s !! z = Some b ->
  inject_block z s w =
    if b then Returns tt s w
    else
      let '(u, w1) := random_random w in
      if Qltb u 0.003 then
        let '(c, w2) := random_choice ANOMALY_TYPES w1 in
        let '(ts, w3) := datetime_now_strftime w2 in
        Returns tt (injected z c ts s) w3
      else Returns tt s w1.
Proof.
  intros Hb. unfold inject_block, bind at 1, dict_get at 1. rewrite Hb.
  destruct b; simpl; [done|].
  unfold bind at 1, bind at 1, call at 1, ret at 1.
  destruct (random_random w) as [u w1].
  destruct (Qltb u 0.003); [|done].
  unfold bind at 1, modify at 1, bind at 1, call at 1.
  destruct (random_choice ANOMALY_TYPES w1) as [c w2].
  unfold bind at 1, modify at 1, bind at 1, dict_get at 1; simpl.
  rewrite lookup_insert_eq, _add_alert_exec.
  by destruct (datetime_now_strftime w2) as [ts w3].
Qed.

Lemma effect_block_exec (z : string) (s : WaterSimulator) (w : W) (b : bool) ty :
  anomaly_active s !! z = Some b ->
  anomaly_type s !! z = Some ty ->
  effect_block z s w =
    if b then
      let '(u, w1) := random_random w in
      Returns (anom_effect_of ty) (if Qltb u 0.035 then resolved z s else s) w1
    else Returns 0.0%Q s w.
Proof.
  intros Hb Hty. unfold effect_block, bind at 1, dict_get at 1. rewrite Hb.
  destruct b; [|done].
  unfold bind at 1, dict_get at 1. rewrite Hty.
  unfold bind at 1, call at 1.
  destruct (random_random w) as [u w1].
  by destruct (Qltb u 0.035).
Qed.

Lemma sample_block_exec (z : string) base dw noise eff (s : WaterSimulator) (w : W) :
  is_Some (pressure_hist s !! z) ->
  is_Some (flow_hist s !! z) ->
  sample_block z base dw noise eff s w =
    let '(u, w1) := random_uniform 10 15 w in
    let pressure := max 0.3 (base + dw + noise + eff) in
    let flow := max 0.5 (pressure / base * u) in
    Returns tt (sampled z (round pressure 3) (round flow 2) s) w1.
Proof.
  intros [dp Hp] [df Hf]. unfold sample_block, bind at 1, call at 1.
  destruct (random_uniform 10 15 w) as [u w1].
  unfold bind, dict_get, modify; simpl. by rewrite Hp, Hf.
Qed.

Lemma count_active_exec (zs : list string) (s : WaterSimulator) (w : W) :
  (forall z, z ∈ zs -> is_Some (anomaly_active s !! z)) ->
  count_active zs s w =
  Returns (Z.of_nat (length (filter (fun z => anomaly_active s !! z = Some true) zs))) s w.
Proof.
  induction zs as [|z zs IH]; intros Hz; [done|].
  destruct (Hz z) as [b Hb]; [left|].
  simpl. unfold bind at 1, dict_get at 1. rewrite Hb.
  unfold bind at 1. rewrite IH by (intros; apply Hz; by right).
  unfold ret. rewrite filter_cons. rewrite Hb.
  destruct b; case_decide; try done; simpl; f_equal; lia.
Qed.

End Execution.

(** ** The invariant *)

Lemma elem_of_ZONES z :
  z ∈ ZONES <->
  z = "Zone A (Central)" \/ z = "Zone B (North)" \/
  z = "Zone C (Elevated)" \/ z = "Zone D (Tail-End)".
Proof. unfold ZONES. rewrite !elem_of_cons, elem_of_nil. tauto. Qed.

Lemma elem_of_enumerate_ZONES i z :
  (i, z) ∈ enumerate ZONES <->
  (i = 0%nat /\ z = "Zone A (Central)") \/ (i = 1%nat /\ z = "Zone B (North)") \/
  (i = 2%nat /\ z = "Zone C (Elevated)") \/ (i = 3%nat /\ z = "Zone D (Tail-End)").
Proof.
  unfold enumerate, ZONES; simpl. rewrite !elem_of_cons, elem_of_nil. split.
  - intros [E|[E|[E|[E|[]]]]]; inversion E; tauto.
  - intros [[-> ->]|[[-> ->]|[[-> ->]|[-> ->]]]]; tauto.
Qed.

Lemma enumerate_ZONES_zone i z : (i, z) ∈ enumerate ZONES -> z ∈ ZONES.
Proof.
  rewrite elem_of_enumerate_ZONES, elem_of_ZONES.
  intros [[_ ->]|[[_ ->]|[[_ ->]|[_ ->]]]]; tauto.
Qed.

Lemma enumerate_ZONES_base i z :
  (i, z) ∈ enumerate ZONES ->
  exists base, ZONE_BASE_PRESSURE !! i = Some base /\ (1.8 <= base)%Q.
Proof.
  rewrite elem_of_enumerate_ZONES.
  intros [[-> _]|[[-> _]|[[-> _]|[-> _]]]]; eexists; (split; [reflexivity|done]).
Qed.

Lemma trimmed_alerts (e : alert) (l : list alert) :
  (length l <= 50)%nat ->
  (if (50 <? length (e :: l))%nat then removelast (e :: l) else e :: l) = take 50 (e :: l).
Proof.
  intros Hl. destruct (Nat.ltb_spec 50 (length (e :: l))) as [Hlt|Hge].
  - rewrite removelast_firstn_len. f_equal. simpl in *. lia.
  - symmetry. apply take_ge. lia.
Qed.

Lemma full_history_append m z z' x :
  full_history m z' -> full_history (hist_append z x m) z'.
Proof.
  intros (d & Hd & Hl & Hm). unfold full_history, hist_append.
  rewrite lookup_alter. case_decide as E.
  - subst z'. rewrite Hd. simpl. eexists; split; [reflexivity|].
    split; [|done].
    rewrite deque_append_length; lia.
  - eauto.
Qed.

Lemma coherent_insert_on (a : gmap string bool) (ty : gmap string (option string)) z c :
  c ∈ ANOMALY_TYPES ->
  (forall z', coherent_at (a !! z') (ty !! z')) ->
  forall z', coherent_at (<[z := true]> a !! z') (<[z := Some c]> ty !! z').
Proof.
  intros Hc Hco z'. rewrite !lookup_insert. by case_decide.
Qed.

Lemma coherent_insert_off (a : gmap string bool) (ty : gmap string (option string)) z :
  (forall z', coherent_at (a !! z') (ty !! z')) ->
  forall z', coherent_at (<[z := false]> a !! z') (<[z := None]> ty !! z').
Proof.
  intros Hco z'. rewrite !lookup_insert. by case_decide.
Qed.

Lemma is_Some_insert_keep {V} (m : gmap string V) z v z' :
  is_Some (m !! z') -> is_Some (<[z := v]> m !! z').
Proof. rewrite lookup_insert. by case_decide. Qed.

Lemma alerts_alerted zone atype ts s :
  (length (alerts s) <= 50)%nat ->
  alerts (alerted zone atype ts s) =
  take 50 ((ts, alert_message zone atype, atype) :: alerts s).
Proof. intros Hl. unfold alerted, set_alerts. cbn [alerts]. by apply trimmed_alerts. Qed.

Lemma Inv_alerted zone atype ts s : Inv s -> Inv (alerted zone atype ts s).
Proof.
  intros [Hco Hz Hp Hf Ha Hn Hu Hv]. constructor; try done.
  rewrite alerts_alerted by done. rewrite length_take. lia.
Qed.

Lemma Inv_injected z c ts s :
  Inv s -> c ∈ ANOMALY_TYPES -> Inv (injected z c ts s).
Proof.
  intros [Hco Hz Hp Hf Ha Hn Hu Hv] Hc. apply Inv_alerted.
  constructor; simpl; try done.
  - by apply coherent_insert_on.
  - intros z' Hz'. by apply is_Some_insert_keep, Hz.
Qed.

Lemma Inv_resolved z s : Inv s -> Inv (resolved z s).
Proof.
  intros [Hco Hz Hp Hf Ha Hn Hu Hv]. constructor; simpl; try done.
  - by apply coherent_insert_off.
  - intros z' Hz'. by apply is_Some_insert_keep, Hz.
Qed.

Lemma Inv_sampled z p f s : Inv s -> Inv (sampled z p f s).
Proof.
  intros [Hco Hz Hp Hf Ha Hn Hu Hv]. constructor; simpl; try done.
  - intros z' Hz'. by apply full_history_append, Hp.
  - intros z' Hz'. by apply full_history_append, Hf.
Qed.

Lemma Inv_set_tick t s : Inv s -> Inv (set_tick t s).
Proof. by intros []. Qed.

Lemma Inv_set_alerts_nil s : Inv s -> Inv (set_alerts [] s).
Proof. intros [? ? ? ? ? ? ? ?]. split; try done. simpl. lia. Qed.

Lemma Inv_cleared s : Inv s -> Inv (set_total_alerts 0 (set_alerts [] s)).
Proof. intros []. constructor; simpl; try done. lia. Qed.

Lemma uptime_of_range n : (0 <= n <= 4)%Z -> (90 <= uptime_of n <= 100)%Q.
Proof.
  intros Hn. unfold uptime_of. destruct (Z.eqb_spec n 0) as [|Hne]; [split; lra|].
  assert (0 <= inject_Z n)%Q by (rewrite <- (Zle_Qle 0); lia).
  pose proof (max_lb_l 90.0 (100 - inject_Z n * 2.5)).
  split; [lra|]. apply max_ub; lra.
Qed.

Lemma active_count_range s : (0 <= active_count s <= 4)%Z.
Proof.
  unfold active_count.
  pose proof (length_filter (fun z => anomaly_active s !! z = Some true) ZONES) as Hl.
  simpl in Hl. lia.
Qed.

Lemma Inv_metrics t s s' : Inv s -> metrics_rel t s s' -> Inv s'.
Proof.
  intros HI [Hskip|g u Ht Hu]; [done|].
  destruct HI. constructor; simpl; try done.
  - apply clamp_range. lra.
  - apply uptime_of_range, active_count_range.
Qed.

Lemma Inv_inject z s s' : Inv s -> inject_rel z s s' -> Inv s'.
Proof. intros HI [|c ts Hb Hc]; [done|]. by apply Inv_injected. Qed.

Lemma Inv_effect z s s' : Inv s -> effect_rel z s s' -> Inv s'.
Proof. intros HI [|Hb]; [done|]. by apply Inv_resolved. Qed.

Lemma Inv_zone z s s' : Inv s -> zone_rel z s s' -> Inv s'.
Proof.
  intros HI [s1 s2 p f Hi He Hp Hf].
  eauto using Inv_sampled, Inv_effect, Inv_inject.
Qed.

Lemma Inv_zones zs s s' : Inv s -> zones_rel zs s s' -> Inv s'.
Proof. intros HI Hr. induction Hr; eauto using Inv_zone. Qed.

Lemma full_history_replicate x :
  length (items (deque_new (replicate 120 x) 120)) = 120%nat /\
  maxlen (deque_new (replicate 120 x) 120) = 120%nat.
Proof. unfold deque_new. rewrite length_replicate. by simpl. Qed.

Lemma coherent_type_Some s z b :
  Inv s -> anomaly_active s !! z = Some b -> is_Some (anomaly_type s !! z).
Proof.
  intros HI Hb. pose proof (inv_coherent s HI z) as Hco. rewrite Hb in Hco.
  destruct (anomaly_type s !! z); [by eexists|by destruct b].
Qed.

Section Invariant.
Context {W : Type} `{Runtime W}.

Lemma toggle_valve_exec (zone_idx : Z) (s : WaterSimulator) (w : W) :
  toggle_valve zone_idx s w =
  match index (valve_status s) zone_idx with
  | None => Raises IndexError s w
  | Some i =>
      match valve_status s !! i with
      | Some v => Returns tt (set_valve_status (<[i := negb v]> (valve_status s)) s) w
      | None => Raises IndexError s w
      end
  end.
Proof.
  unfold toggle_valve, bind, gets, list_get, raise, modify.
  destruct (index _ _); [|done]. by destruct (_ !! _).
Qed.

Lemma step_zone_trace t i (z : string) (s : WaterSimulator) (w : W) :
  Inv s -> (i, z) ∈ enumerate ZONES ->
  exists s1 w1 s2 p f w',
    inject_block z s (random_gauss 0 0.05 w).2 = Returns tt s1 w1 /\
    inject_rel z s s1 /\ effect_rel z s1 s2 /\
    (0.3 <= p)%Q /\ (0.5 <= f)%Q /\
    step_zone t i z s w = Returns tt (sampled z p f s2) w'.
Proof.
  intros HI Hiz.
  destruct (enumerate_ZONES_base i z Hiz) as (base & Hbase & _).
  pose proof (enumerate_ZONES_zone i z Hiz) as Hz.
  destruct (inv_zones s HI z Hz) as [b Hb].
  unfold step_zone, bind at 1, list_get at 1. rewrite Hbase.
  unfold bind at 1, call at 1. destruct (random_gauss 0 0.05 w) as [noise w0].
  assert (exists s1 w1, inject_block z s w0 = Returns tt s1 w1 /\ inject_rel z s s1)
    as (s1 & w1 & Hexec1 & Hrel1).
  { rewrite (inject_block_exec z s w0 b Hb). destruct b.
    - eexists _, _. split; [done|constructor].
    - destruct (random_random w0) as [u wa]. destruct (Qltb u 0.003).
      + pose proof (random_choice_elem ANOMALY_TYPES wa) as Hc.
        destruct (random_choice ANOMALY_TYPES wa) as [c wb].
        destruct (datetime_now_strftime wb) as [ts wc].
        eexists _, _. split; [done|]. constructor; [done|]. by apply Hc.
      + eexists _, _. split; [done|constructor]. }
  rewrite (bind_returns _ _ _ _ _ _ _ Hexec1).
  pose proof (Inv_inject _ _ _ HI Hrel1) as HI1.
  destruct (inv_zones s1 HI1 z Hz) as [b1 Hb1].
  destruct (coherent_type_Some s1 z b1 HI1 Hb1) as [ty1 Hty1].
  assert (exists eff s2 w2, effect_block z s1 w1 = Returns eff s2 w2 /\ effect_rel z s1 s2)
    as (eff & s2 & w2 & Hexec2 & Hrel2).
  { rewrite (effect_block_exec z s1 w1 b1 ty1 Hb1 Hty1). destruct b1.
    - destruct (random_random w1) as [u wa].
      eexists _, _, _. split; [done|].
      destruct (Qltb u 0.035); by constructor.
    - eexists _, _, _. split; [done|constructor]. }
  rewrite (bind_returns _ _ _ _ _ _ _ Hexec2).
  pose proof (Inv_effect _ _ _ HI1 Hrel2) as HI2.
  destruct (inv_pressure s2 HI2 z Hz) as (dp & Hdp & _).
  destruct (inv_flow s2 HI2 z Hz) as (df & Hdf & _).
  rewrite sample_block_exec by (by eexists).
  destruct (random_uniform 10 15 w2) as [u w3].
  eexists s1, w1, s2, _, _, _. simpl.
  repeat split; eauto using round_pressure_floor, round_flow_floor, max_lb_l.
Qed.

Lemma step_zone_sound t i (z : string) (s : WaterSimulator) (w : W) :
  Inv s -> (i, z) ∈ enumerate ZONES ->
  exists s' w', step_zone t i z s w = Returns tt s' w' /\ zone_rel z s s'.
Proof.
  intros HI Hiz.
  destruct (step_zone_trace t i z s w HI Hiz)
    as (s1 & w1 & s2 & p & f & w' & _ & Hi & He & Hp & Hf & Hexec).
  eexists _, _. split; [done|]. by econstructor.
Qed.

Lemma step_metrics_sound t (s : WaterSimulator) (w : W) :
  Inv s ->
  exists s' w', step_metrics t s w = Returns tt s' w' /\ metrics_rel t s s'.
Proof.
  intros HI. unfold step_metrics.
  destruct (Z.eqb_spec (t mod 10) 0) as [Ht|Ht].
  - unfold bind at 1, call at 1. destruct (random_gauss 0 0.3 w) as [g w1].
    unfold bind at 1, modify at 1, bind at 1, call at 1.
    pose proof (random_uniform_range 0.05 0.12 w1) as Hu.
    destruct (random_uniform 0.05 0.12 w1) as [u w2].
    unfold bind at 1, modify at 1, bind at 1.
    rewrite count_active_exec by (intros z Hz; by apply (inv_zones s HI)).
    eexists _, _. split; [done|].
    apply (metrics_update t s g u Ht). apply Hu. lra.
  - eexists _, _. split; [done|]. by constructor.
Qed.

Lemma zones_loop_sound t (l : list (nat * string)) (s : WaterSimulator) (w : W) :
  Inv s -> (forall p, p ∈ l -> p ∈ enumerate ZONES) ->
  exists s' w',
    for_each l (fun '(i, zone) => step_zone t i zone) s w = Returns tt s' w' /\
    zones_rel l.*2 s s'.
Proof.
  revert s w. induction l as [|[i z] l IH]; intros s w HI Hl.
  - eexists _, _. split; [done|constructor].
  - destruct (step_zone_sound t i z s w HI) as (s1 & w1 & Hexec & Hrel).
    { apply Hl. left. }
    destruct (IH s1 w1) as (s' & w' & Hexec' & Hrel').
    { by eapply Inv_zone. }
    { intros p Hp. apply Hl. by right. }
    exists s', w'. split.
    + simpl. by rewrite (bind_returns _ _ _ _ _ _ _ Hexec).
    + simpl. econstructor; eauto.
Qed.

Lemma step_sound (s : WaterSimulator) (w : W) :
  Inv s -> exists s' w', step s w = Returns tt s' w' /\ step_rel s s'.
Proof.
  intros HI. unfold step, bind at 1, modify at 1, bind at 1, gets at 1.
  set (s0 := set_tick (tick s + 1) s).
  destruct (zones_loop_sound (tick s0) (enumerate ZONES) s0 w) as (s4 & w4 & Hexec & Hrel);
    [by apply Inv_set_tick|done|].
  rewrite (bind_returns _ _ _ _ _ _ _ Hexec).
  destruct (step_metrics_sound (tick s0) s4 w4) as (s' & w' & Hexec' & Hrel').
  { eapply Inv_zones; [|done]. by apply Inv_set_tick. }
  exists s', w'. split; [done|]. by exists s4.
Qed.

Lemma Inv_init (w : W) : Inv (__init__ w).1.
Proof.
  unfold __init__, init_flow_hist. simpl foldl.
  destruct (random_uniform 8 14 w) as [u1 w1].
  destruct (random_uniform 8 14 w1) as [u2 w2].
  destruct (random_uniform 8 14 w2) as [u3 w3].
  destruct (random_uniform 8 14 w3) as [u4 w4].
  constructor; simpl.
  - intros z. rewrite !lookup_insert.
    repeat case_decide; rewrite ?lookup_empty; done.
  - intros z Hz. apply elem_of_ZONES in Hz.
    destruct Hz as [->|[->|[->| ->]]]; by eexists.
  - intros z Hz. apply elem_of_ZONES in Hz. unfold full_history, init_pressure_hist.
    destruct Hz as [->|[->|[->| ->]]]; (eexists; split; [reflexivity|]);
      apply full_history_replicate.
  - intros z Hz. apply elem_of_ZONES in Hz. unfold full_history.
    destruct Hz as [->|[->|[->| ->]]]; (eexists; split; [reflexivity|]);
      apply full_history_replicate.
  - lia.
  - split; lra.
  - split; lra.
  - done.
Qed.

Lemma Inv_command c (s : WaterSimulator) (w : W) :
  Inv s -> Inv (final (run_command c s w)).
Proof.
  intros HI. destruct c as [zone|idx|]; simpl.
  - by apply Inv_resolved.
  - rewrite toggle_valve_exec. destruct (index _ _); [|done].
    destruct (_ !! _); [|done]. simpl.
    destruct HI. constructor; simpl; try done. by rewrite length_insert.
  - by apply Inv_cleared.
Qed.

Lemma Inv_block b (s : WaterSimulator) (w : W) :
  Inv s -> valid_block b -> Inv (final (run_block b s w)).
Proof.
  intros HI Hb. destruct b as [|t i z|t]; simpl.
  - by apply Inv_set_tick.
  - destruct (step_zone_sound t i z s w HI Hb) as (s' & w' & -> & Hrel).
    by eapply Inv_zone.
  - destruct (step_metrics_sound t s w HI) as (s' & w' & -> & Hrel).
    by eapply Inv_metrics.
Qed.

Lemma reachable_Inv (s : WaterSimulator) : reachable s -> Inv s.
Proof.
  induction 1; auto using Inv_init, Inv_command, Inv_block.
Qed.

End Invariant.

(** ** What a tick leaves alone, and what it appends *)

Lemma inject_rel_frame z s s' :
  inject_rel z s s' ->
  tick s' = tick s /\ nrw_percent s' = nrw_percent s /\
  energy_kwh s' = energy_kwh s /\ uptime_pct s' = uptime_pct s /\
  valve_status s' = valve_status s /\
  pressure_hist s' = pressure_hist s /\ flow_hist s' = flow_hist s /\
  (total_alerts s <= total_alerts s')%Z.
Proof. intros [|c ts Hb Hc]; simpl; repeat split; lia. Qed.

Lemma effect_rel_frame z s s' :
  effect_rel z s s' ->
  tick s' = tick s /\ nrw_percent s' = nrw_percent s /\
  energy_kwh s' = energy_kwh s /\ uptime_pct s' = uptime_pct s /\
  valve_status s' = valve_status s /\
  pressure_hist s' = pressure_hist s /\ flow_hist s' = flow_hist s /\
  alerts s' = alerts s /\ total_alerts s' = total_alerts s.
Proof. by intros [|Hb]. Qed.

Lemma zone_rel_frame z s s' :
  zone_rel z s s' ->
  tick s' = tick s /\ nrw_percent s' = nrw_percent s /\
  energy_kwh s' = energy_kwh s /\ uptime_pct s' = uptime_pct s /\
  valve_status s' = valve_status s /\
  (total_alerts s <= total_alerts s')%Z.
Proof.
  intros [s1 s2 p f Hi He Hp Hf].
  destruct (inject_rel_frame _ _ _ Hi) as (D1 & D2 & D3 & D4 & D5 & _ & _ & Hle).
  destruct (effect_rel_frame _ _ _ He) as (E1 & E2 & E3 & E4 & E5 & _ & _ & _ & E6).
  simpl. repeat split; congruence || lia.
Qed.

Lemma zones_rel_frame zs s s' :
  zones_rel zs s s' ->
  tick s' = tick s /\ nrw_percent s' = nrw_percent s /\
  energy_kwh s' = energy_kwh s /\ uptime_pct s' = uptime_pct s /\
  valve_status s' = valve_status s /\
  (total_alerts s <= total_alerts s')%Z.
Proof.
  induction 1 as [|z zs s s1 s' Hz _ IH]; [by repeat split|].
  destruct (zone_rel_frame _ _ _ Hz) as (E1 & E2 & E3 & E4 & E5 & Hle).
  destruct IH as (D1 & D2 & D3 & D4 & D5 & Hle').
  repeat split; congruence || lia.
Qed.

Lemma zone_rel_hist z s s' :
  zone_rel z s s' ->
  exists p f, (0.3 <= p)%Q /\ (0.5 <= f)%Q /\
    pressure_hist s' = hist_append z p (pressure_hist s) /\
    flow_hist s' = hist_append z f (flow_hist s).
Proof.
  intros [s1 s2 p f Hi He Hp Hf]. exists p, f.
  destruct (inject_rel_frame _ _ _ Hi) as (_ & _ & _ & _ & _ & <- & <- & _).
  destruct (effect_rel_frame _ _ _ He) as (_ & _ & _ & _ & _ & <- & <- & _).
  by repeat split.
Qed.

(** Over a loop on distinct zones, each zone of the loop gets exactly one
    sample appended to each of its histories, and no other key changes. *)
Lemma zones_rel_hist zs s s' :
  zones_rel zs s s' -> NoDup zs ->
  forall z,
    (z ∈ zs -> exists p f, (0.3 <= p)%Q /\ (0.5 <= f)%Q /\
       pressure_hist s' !! z = (fun d => deque_append d p) <$> pressure_hist s !! z /\
       flow_hist s' !! z = (fun d => deque_append d f) <$> flow_hist s !! z) /\
    (z ∉ zs ->
       pressure_hist s' !! z = pressure_hist s !! z /\
       flow_hist s' !! z = flow_hist s !! z).
Proof.
  induction 1 as [|z0 zs s s1 s' Hz0 _ IH]; intros Hnd z.
  - split; [by intros ?%elem_of_nil|done].
  - apply NoDup_cons in Hnd as [Hz0zs Hnd].
    destruct (zone_rel_hist _ _ _ Hz0) as (p & f & Hp & Hf & Ep & Ef).
    destruct (IH Hnd z) as [IHin IHout].
    split.
    + intros [->|Hin]%elem_of_cons.
      * destruct (IHout Hz0zs) as [-> ->]. exists p, f.
        rewrite Ep, Ef. unfold hist_append. by rewrite !lookup_alter_eq.
      * destruct (IHin Hin) as (p' & f' & Hp' & Hf' & -> & ->).
        exists p', f'. rewrite Ep, Ef. unfold hist_append.
        assert (z0 <> z) by (by intros ->).
        by rewrite !lookup_alter_ne.
    + intros Hout. apply not_elem_of_cons in Hout as [Hne Hout].
      destruct (IHout Hout) as [-> ->]. rewrite Ep, Ef. unfold hist_append.
      by rewrite !lookup_alter_ne.
Qed.

Lemma NoDup_ZONES : NoDup ZONES.
Proof.
  unfold ZONES.
  repeat (apply NoDup_cons; split;
          [rewrite ?elem_of_cons, elem_of_nil; intuition discriminate|]).
  apply NoDup_nil_2.
Qed.

(** ** A tick as a sequence of blocks *)

Section Blocks.
Context {W : Type} `{Runtime W}.

Lemma for_each_app {A} (l1 l2 : list A) (body : A -> M W unit) s w :
  for_each (l1 ++ l2) body s w = bind (for_each l1 body) (fun _ => for_each l2 body) s w.
Proof.
  revert s w. induction l1 as [|x l1 IH]; intros s w; [done|].
  simpl. unfold bind. destruct (body x s w) as [[] s1 w1|e s1 w1]; [|done].
  rewrite IH. done.
Qed.

Lemma step_as_blocks (s : WaterSimulator) (w : W) :
  step s w =
  for_each (tick_blocks (tick s + 1)) run_block (set_tick (tick s + 1) s) w.
Proof.
  unfold step, bind at 1, modify at 1, bind at 1, gets at 1.
  set (s0 := set_tick (tick s + 1) s).
  change (tick s0) with (tick s + 1)%Z.
  unfold tick_blocks, enumerate, ZONES. simpl. unfold bind.
  repeat (match goal with
          | |- context [step_zone ?t ?i ?z ?s ?w] =>
              destruct (step_zone t i z s w) as [[] ? ?|? ? ?]; [|reflexivity]
          end).
  unfold ret. by destruct (step_metrics _ _ _) as [[] ? ?|? ? ?].
Qed.

Lemma valid_tick_blocks t : Forall valid_block (tick_blocks t).
Proof.
  unfold tick_blocks. apply Forall_app. split; [|by repeat constructor].
  apply Forall_fmap, Forall_forall. by intros [i z] Hiz.
Qed.

Lemma blocks_return (l : list block) (s : WaterSimulator) (w : W) :
  Inv s -> Forall valid_block l ->
  exists s' w', for_each l run_block s w = Returns tt s' w' /\ Inv s'.
Proof.
  revert s w. induction l as [|b l IH]; intros s w HI Hl.
  - by eexists _, _.
  - apply Forall_cons in Hl as [Hb Hl].
    pose proof (Inv_block b s w HI Hb) as HI1.
    assert (exists s1 w1, run_block b s w = Returns tt s1 w1) as (s1 & w1 & Hexec).
    { destruct b as [|t i z|t]; simpl.
      - by eexists _, _.
      - destruct (step_zone_sound t i z s w HI Hb) as (? & ? & -> & _). by eexists _, _.
      - destruct (step_metrics_sound t s w HI) as (? & ? & -> & _). by eexists _, _. }
    rewrite Hexec in HI1. simpl in HI1.
    destruct (IH s1 w1 HI1 Hl) as (s' & w' & Hexec' & HI').
    exists s', w'. split; [|done].
    simpl. by rewrite (bind_returns _ _ _ _ _ _ _ Hexec).
Qed.

Lemma reachable_blocks (l : list block) (s : WaterSimulator) (w : W) :
  reachable s -> Forall valid_block l ->
  reachable (final (for_each l run_block s w)).
Proof.
  revert s w. induction l as [|b l IH]; intros s w Hr Hl; [done|].
  apply Forall_cons in Hl as [Hb Hl].
  pose proof (reach_block s b w Hr Hb) as Hr1.
  simpl. unfold bind. destruct (run_block b s w) as [[] s1 w1|e s1 w1]; [|done].
  by apply IH.
Qed.

Lemma reachable_step (s : WaterSimulator) (w : W) :
  reachable s -> reachable (final (step s w)).
Proof.
  intros Hr. rewrite step_as_blocks.
  apply reachable_blocks; [|apply valid_tick_blocks].
  by apply (reach_block s Begin w).
Qed.

(** *** Computations that neither read nor write the valve flags *)

Lemma valve_blind_ret {A} (a : A) : valve_blind (W := W) (ret a).
Proof. done. Qed.

Lemma valve_blind_bind {A B} (m : M W A) (k : A -> M W B) :
  valve_blind m -> (forall a, valve_blind (W := W) (k a)) -> valve_blind (W := W) (bind m k).
Proof.
  intros Hm Hk v s w. unfold bind. rewrite Hm.
  destruct (m s w); simpl; [apply Hk|done].
Qed.

Lemma valve_blind_gets {A} (f : WaterSimulator -> A) :
  (forall v s, f (set_valve_status v s) = f s) -> valve_blind (W := W) (gets f).
Proof. intros Hf v s w. unfold gets. by rewrite Hf. Qed.

Lemma valve_blind_modify (f : WaterSimulator -> WaterSimulator) :
  (forall v s, f (set_valve_status v s) = set_valve_status v (f s)) ->
  valve_blind (W := W) (modify f).
Proof. intros Hf v s w. unfold modify. by rewrite Hf. Qed.

Lemma valve_blind_call {A} (f : W -> A * W) : valve_blind (W := W) (call f).
Proof. intros v s w. unfold call. by destruct (f w). Qed.

Lemma valve_blind_dict_get {V} (d : WaterSimulator -> gmap string V) k :
  (forall v s, d (set_valve_status v s) = d s) -> valve_blind (W := W) (dict_get d k).
Proof. intros Hd v s w. unfold dict_get. rewrite Hd. by destruct (_ !! _). Qed.

Lemma valve_blind_list_get {A} (l : list A) i : valve_blind (W := W) (list_get l i).
Proof. intros v s w. unfold list_get. by destruct (_ !! _). Qed.

Lemma valve_blind_for_each {A} (l : list A) (body : A -> M W unit) :
  (forall x, valve_blind (W := W) (body x)) -> valve_blind (W := W) (for_each l body).
Proof.
  intros Hb. induction l; simpl; [apply valve_blind_ret|].
  by apply valve_blind_bind.
Qed.

Ltac valve_blind :=
  repeat first
    [ apply valve_blind_ret
    | apply valve_blind_call
    | apply valve_blind_list_get
    | apply valve_blind_gets; reflexivity
    | apply valve_blind_modify; reflexivity
    | apply valve_blind_dict_get; reflexivity
    | apply valve_blind_bind
    | progress cbv beta zeta
    | match goal with
      | |- forall _, valve_blind _ => intro
      | |- valve_blind (if ?b then _ else _) => destruct b
      end ].

Lemma valve_blind_add_alert zone atype : valve_blind (W := W) (_add_alert zone atype).
Proof. unfold _add_alert. valve_blind. Qed.

Lemma valve_blind_step_zone t i zone : valve_blind (W := W) (step_zone t i zone).
Proof.
  unfold step_zone, inject_block, effect_block, sample_block.
  valve_blind; apply valve_blind_add_alert.
Qed.

Lemma valve_blind_count_active zs : valve_blind (W := W) (count_active zs).
Proof. induction zs; simpl; valve_blind. done. Qed.

Lemma valve_blind_step_metrics t : valve_blind (W := W) (step_metrics t).
Proof.
  unfold step_metrics. pose proof valve_blind_count_active. valve_blind; done.
Qed.

Lemma valve_blind_run_block b : valve_blind (W := W) (run_block b).
Proof.
  destruct b; simpl;
    [valve_blind|apply valve_blind_step_zone|apply valve_blind_step_metrics].
Qed.

Lemma set_valve_status_id s : set_valve_status (valve_status s) s = s.
Proof. by destruct s. Qed.

Lemma valve_blind_preserves {A} (m : M W A) s w :
  valve_blind m -> valve_status (final (m s w)) = valve_status s.
Proof.
  intros Hm. specialize (Hm (valve_status s) s w).
  rewrite set_valve_status_id in Hm. rewrite Hm at 1.
  by destruct (m s w).
Qed.

Lemma deliver_toggle idx (s : WaterSimulator) (w : W) :
  deliver (Toggle idx) s w =
  Returns tt (set_valve_status (toggled idx (valve_status s)) s) w.
Proof.
  unfold deliver, toggled. simpl. rewrite toggle_valve_exec.
  destruct (index _ _); [destruct (_ !! _)|]; simpl;
    by rewrite ?set_valve_status_id.
Qed.

(** A block run on a state that satisfies the invariant returns. *)
Lemma block_returns b (s : WaterSimulator) (w : W) :
  Inv s -> valid_block b ->
  exists s1 w1, run_block b s w = Returns tt s1 w1 /\ Inv s1.
Proof.
  intros HI Hb.
  destruct (blocks_return [b] s w HI) as (s1 & w1 & Hexec & HI1).
  { by apply Forall_singleton. }
  exists s1, w1. split; [|done].
  simpl in Hexec. unfold bind in Hexec.
  by destruct (run_block b s w) as [[] s2 w2|e s2 w2].
Qed.

(** Run one after the other, the statements of a command are the command. *)
Lemma command_statements_run c (s : WaterSimulator) (w : W) :
  for_each (command_statements c) (fun st => st) s w = run_command c s w.
Proof.
  destruct c as [zone|idx|]; try reflexivity.
  simpl. unfold bind. by destruct (toggle_valve idx s w) as [[] s1 w1|e s1 w1].
Qed.

(** Ticks lead from reachable states to reachable states. *)
Lemma reachable_run_ticks n (s : WaterSimulator) (w : W) :
  reachable s -> reachable (final (run_ticks n s w)).
Proof.
  revert s w. induction n as [|n IH]; intros s w Hr; [done|].
  pose proof (reachable_step s w Hr) as Hr1.
  simpl. unfold bind. destruct (step s w) as [[] s1 w1|e s1 w1]; [|done].
  by apply IH.
Qed.

(** [_toggle_sim] during a pass of the loop is [_toggle_sim] after it. *)
Lemma pass_with_toggle_after k app (s : WaterSimulator) (w : W) :
  pass_with_toggle k app s w = (_toggle_sim app, _sim_loop_pass app s w).
Proof.
  unfold pass_with_toggle, _sim_loop_pass. destruct (_sim_running app); [|done].
  rewrite step_as_blocks, <- (take_drop k (tick_blocks (tick s + 1))), for_each_app.
  unfold bind, modify, gets, ret.
  change (tick (set_tick (tick s + 1) s)) with (tick s + 1)%Z.
  by destruct (for_each (take k _) run_block _ w) as [[] s1 w1|e s1 w1].
Qed.

End Blocks.

(** ** The concrete states are reachable *)

Lemma sim0_reachable : reachable (H := Tape.runtime) sim0.
Proof. apply reach_init. Defined.

Lemma sim1_reachable : reachable (H := Tape.runtime) sim1.
Proof. apply reachable_step, sim0_reachable. Defined.

Lemma sim9_reachable : reachable (H := Tape.runtime) sim9.
Proof. apply reachable_run_ticks, sim1_reachable. Defined.

(** ** The claims *)

Section Claims.
Context {W : Type} `{Runtime W}.

Lemma init_histories (w0 : W) i z :
  (i, z) ∈ enumerate ZONES ->
  exists base u, ZONE_BASE_PRESSURE !! i = Some base /\ (8 <= u <= 14)%Q /\
    items <$> pressure_hist (__init__ w0).1 !! z = Some (replicate 120 base) /\
    items <$> flow_hist (__init__ w0).1 !! z = Some (replicate 120 (round u 2)).
Proof.
  intros Hiz. unfold __init__, init_flow_hist. simpl foldl.
  pose proof (random_uniform_range 8 14 w0) as R1.
  destruct (random_uniform 8 14 w0) as [u1 w1].
  pose proof (random_uniform_range 8 14 w1) as R2.
  destruct (random_uniform 8 14 w1) as [u2 w2].
  pose proof (random_uniform_range 8 14 w2) as R3.
  destruct (random_uniform 8 14 w2) as [u3 w3].
  pose proof (random_uniform_range 8 14 w3) as R4.
  destruct (random_uniform 8 14 w3) as [u4 w4].
  assert (Hle : (8 <= 14)%Q) by lra.
  specialize (R1 Hle). specialize (R2 Hle). specialize (R3 Hle). specialize (R4 Hle).
  simpl in R1, R2, R3, R4.
  apply elem_of_enumerate_ZONES in Hiz.
  destruct Hiz as [[-> ->]|[[-> ->]|[[-> ->]|[-> ->]]]];
    [eexists _, u1|eexists _, u2|eexists _, u3|eexists _, u4];
    (split; [reflexivity|]); (split; [done|split; reflexivity]).
Qed.

(** C1 (as amended).  [toggle_valve] with an index outside [-4 .. 3]
    raises [IndexError] and leaves the simulator as it was.  With an index
    in [-4 .. 3] it returns, having negated the flag at position
    [idx mod 4] (so [-4 .. -1] address the valves counted from the end)
    and changed nothing else.  [resolve_anomaly] never rejects: for any
    zone name it returns, having stored [False] and [None] under that name
    in the two anomaly dictionaries; every other attribute of the object is
    as it was, and for a name outside [ZONES] the entries of the four
    configured zones are untouched. *)
Theorem zone_reference_handling (s : WaterSimulator) (w : W) :
  reachable s ->
  (forall idx, (idx < -4 \/ 4 <= idx)%Z ->
     toggle_valve idx s w = Raises IndexError s w) /\
  (forall idx, (-4 <= idx < 4)%Z ->
     exists v, valve_status s !! Z.to_nat (idx mod 4) = Some v /\
       toggle_valve idx s w =
       Returns tt (set_valve_status (<[Z.to_nat (idx mod 4) := negb v]> (valve_status s)) s) w) /\
  (forall zone, exists s',
     resolve_anomaly zone s w = Returns tt s' w /\
     anomaly_active s' = <[zone := false]> (anomaly_active s) /\
     anomaly_type s' = <[zone := None]> (anomaly_type s) /\
     running s' = running s /\ tick s' = tick s /\ history_len s' = history_len s /\
     pressure_hist s' = pressure_hist s /\ flow_hist s' = flow_hist s /\
     alerts s' = alerts s /\ total_alerts s' = total_alerts s /\
     nrw_percent s' = nrw_percent s /\ energy_kwh s' = energy_kwh s /\
     uptime_pct s' = uptime_pct s /\
     pump_status s' = pump_status s /\ valve_status s' = valve_status s /\
     (zone ∉ ZONES -> forall z, z ∈ ZONES ->
        anomaly_active s' !! z = anomaly_active s !! z /\
        anomaly_type s' !! z = anomaly_type s !! z)).
Proof.
  intros Hr. pose proof (reachable_Inv s Hr) as HI.
  pose proof (inv_valves s HI) as Hlen.
  split; [|split].
  - intros idx Hidx. rewrite toggle_valve_exec. unfold index. rewrite Hlen.
    destruct (Z.leb_spec 0 idx), (Z.ltb_spec idx (Z.of_nat 4)),
      (Z.leb_spec (- Z.of_nat 4) idx), (Z.ltb_spec idx 0); simpl; try done; lia.
  - intros idx Hidx. rewrite toggle_valve_exec. unfold index. rewrite Hlen.
    destruct (Z.leb_spec 0 idx), (Z.ltb_spec idx (Z.of_nat 4)),
      (Z.leb_spec (- Z.of_nat 4) idx), (Z.ltb_spec idx 0); simpl; try lia.
    + rewrite Z.mod_small by lia.
      destruct (lookup_lt_is_Some_2 (valve_status s) (Z.to_nat idx)) as [v Hv]; [lia|].
      exists v. by rewrite Hv.
    + assert (idx mod 4 = Z.of_nat 4 + idx)%Z as ->.
      { symmetry. apply (Z.mod_unique idx 4 (-1)); lia. }
      destruct (lookup_lt_is_Some_2 (valve_status s) (Z.to_nat (Z.of_nat 4 + idx)))
        as [v Hv]; [lia|].
      exists v. by rewrite Hv.
  - intros zone. eexists. split; [reflexivity|]. simpl.
    do 14 (split; [done|]).
    intros Hout z Hz. assert (zone <> z) by (by intros ->).
    by rewrite !lookup_insert_ne.
Qed.

(** C2.  In the loop iteration of a zone, the state [s1] left by the
    injection block differs from [s] by exactly one alert at the head of
    the log and one more in [total_alerts] when the zone's flag went from
    off to on, and has the same log and counter otherwise; the rest of
    the iteration (penalty, auto-resolve, sampling), the metrics update and
    [resolve_anomaly] leave the log and the counter alone. *)
Theorem alert_iff_injection (s : WaterSimulator) (w : W) t i (z : string) :
  reachable s -> (i, z) ∈ enumerate ZONES ->
  exists s1 w1 s' w',
    inject_block z s (random_gauss 0 0.05 w).2 = Returns tt s1 w1 /\
    step_zone t i z s w = Returns tt s' w' /\
    alerts s' = alerts s1 /\ total_alerts s' = total_alerts s1 /\
    (anomaly_active s !! z = Some false /\ anomaly_active s1 !! z = Some true ->
       exists ts c,
         anomaly_type s1 !! z = Some (Some c) /\
         alerts s1 = take 50 ((ts, alert_message z (Some c), Some c) :: alerts s) /\
         total_alerts s1 = (total_alerts s + 1)%Z) /\
    (~ (anomaly_active s !! z = Some false /\ anomaly_active s1 !! z = Some true) ->
       alerts s1 = alerts s /\ total_alerts s1 = total_alerts s) /\
    (alerts (final (step_metrics t s w)) = alerts s /\
     total_alerts (final (step_metrics t s w)) = total_alerts s) /\
    (forall zone,
       alerts (final (resolve_anomaly zone s w)) = alerts s /\
       total_alerts (final (resolve_anomaly zone s w)) = total_alerts s).
Proof.
  intros Hr Hiz. pose proof (reachable_Inv s Hr) as HI.
  destruct (step_zone_trace t i z s w HI Hiz)
    as (s1 & w1 & s2 & p & f & w' & Hexec1 & Hi & He & Hp & Hf & Hexec).
  exists s1, w1, (sampled z p f s2), w'.
  destruct (effect_rel_frame _ _ _ He) as (_ & _ & _ & _ & _ & _ & _ & Ea & Et).
  do 4 (split; [done|]).
  split; [|split; [|split]].
  - destruct Hi as [|c ts Hb Hc]; intros [Hoff Hon]; [congruence|].
    exists ts, c. split; [|split].
    + simpl. by rewrite lookup_insert_eq.
    + unfold injected. rewrite alerts_alerted; [done|]. simpl. by apply inv_alerts.
    + done.
  - destruct Hi as [|c ts Hb Hc]; [done|].
    intros Hn. exfalso. apply Hn. split; [done|]. simpl. by rewrite lookup_insert_eq.
  - destruct (step_metrics_sound t s w HI) as (sm & wm & -> & Hm). by destruct Hm.
  - done.
Qed.

(** C3 (as amended).  Every history of a configured zone holds exactly 120
    samples in every reachable state; a tick returns and leaves each
    history equal to the old one without its oldest sample, followed by the
    new sample; at start-up a pressure history is 120 copies of the zone's
    base pressure and a flow history is 120 copies of one value
    [round(uniform(8, 14), 2)] drawn for that zone. *)
Theorem history_buffers (s : WaterSimulator) (w : W) :
  reachable s ->
  (forall z, z ∈ ZONES ->
     full_history (pressure_hist s) z /\ full_history (flow_hist s) z) /\
  (exists s' w', step s w = Returns tt s' w' /\
     forall z, z ∈ ZONES -> exists dp df p f,
       pressure_hist s !! z = Some dp /\ flow_hist s !! z = Some df /\
       items <$> pressure_hist s' !! z = Some (drop 1 (items dp) ++ [p]) /\
       items <$> flow_hist s' !! z = Some (drop 1 (items df) ++ [f])) /\
  (forall (w0 : W) i z, (i, z) ∈ enumerate ZONES ->
     exists base u, ZONE_BASE_PRESSURE !! i = Some base /\ (8 <= u <= 14)%Q /\
       items <$> pressure_hist (__init__ w0).1 !! z = Some (replicate 120 base) /\
       items <$> flow_hist (__init__ w0).1 !! z = Some (replicate 120 (round u 2))).
Proof.
  intros Hr. pose proof (reachable_Inv s Hr) as HI.
  split; [|split].
  - intros z Hz. split; [by apply inv_pressure|by apply inv_flow].
  - destruct (step_sound s w HI) as (s' & w' & Hexec & s4 & Hzs & Hm).
    exists s', w'. split; [done|]. intros z Hz.
    destruct (inv_pressure s HI z Hz) as (dp & Hdp & Hlp & Hmp).
    destruct (inv_flow s HI z Hz) as (df & Hdf & Hlf & Hmf).
    destruct (zones_rel_hist _ _ _ Hzs NoDup_ZONES z) as [Hin _].
    destruct (Hin Hz) as (p & f & _ & _ & Ep & Ef).
    exists dp, df, p, f. repeat split; try done.
    + assert (pressure_hist s' = pressure_hist s4) as -> by (by destruct Hm).
      rewrite Ep. simpl. rewrite Hdp. simpl. f_equal.
      apply deque_append_full; lia.
    + assert (flow_hist s' = flow_hist s4) as -> by (by destruct Hm).
      rewrite Ef. simpl. rewrite Hdf. simpl. f_equal.
      apply deque_append_full; lia.
  - apply init_histories.
Qed.


(** C5.  In every reachable state the log holds at most 50 alerts.
    [_add_alert] puts the new alert at the head and keeps the first 50, so
    a full log loses its last (oldest) entry, and [total_alerts] grows by
    one all the same.  A tick never lowers [total_alerts]; [resolve_anomaly]
    and [toggle_valve] leave it alone; [_clear_alerts] empties the log and
    sets the counter to 0. *)
Theorem alert_log_bounded (s : WaterSimulator) (w : W) :
  reachable s ->
  (length (alerts s) <= 50)%nat /\
  (forall zone atype, exists ts s' w',
     _add_alert zone atype s w = Returns tt s' w' /\
     alerts s' = take 50 ((ts, alert_message zone atype, atype) :: alerts s) /\
     (length (alerts s) = 50%nat ->
        alerts s' = (ts, alert_message zone atype, atype) :: removelast (alerts s)) /\
     total_alerts s' = (total_alerts s + 1)%Z) /\
  (exists s' w', step s w = Returns tt s' w' /\ (total_alerts s <= total_alerts s')%Z) /\
  (forall zone, total_alerts (final (resolve_anomaly zone s w)) = total_alerts s) /\
  (forall idx, total_alerts (final (toggle_valve idx s w)) = total_alerts s) /\
  (exists s', _clear_alerts s w = Returns tt s' w /\
     alerts s' = [] /\ total_alerts s' = 0%Z).
Proof.
  intros Hr. pose proof (reachable_Inv s Hr) as HI.
  pose proof (inv_alerts s HI) as Hlen.
  split; [done|]. split; [|split; [|split; [|split]]].
  - intros zone atype. rewrite _add_alert_exec.
    eexists _, _, _. split; [done|].
    rewrite alerts_alerted by done. split; [done|]. split; [|done].
    intros H50. rewrite removelast_firstn_len, H50. done.
  - destruct (step_sound s w HI) as (s' & w' & Hexec & s4 & Hzs & Hm).
    exists s', w'. split; [done|].
    destruct (zones_rel_frame _ _ _ Hzs) as (_ & _ & _ & _ & _ & Hle). simpl in Hle.
    destruct Hm; simpl; lia.
  - done.
  - intros idx. rewrite toggle_valve_exec.
    destruct (index _ _); [|done]. by destruct (_ !! _).
  - by eexists.
Qed.

(** C6 (as amended).  Run on its own, [_clear_alerts] returns with an
    empty log and a zero counter, and every other attribute of the
    simulator as it was.  It is not one atomic action but two stores, the
    log first and the counter second, with no lock around them: when a
    block of the tick runs between the two, the block starts from the
    emptied log with the old counter, and the result is the state it
    leaves with the counter set to 0, whatever the block has logged. *)
Theorem clear_alerts_frame (s : WaterSimulator) (w : W) :
  (exists s', _clear_alerts s w = Returns tt s' w /\
     alerts s' = [] /\ total_alerts s' = 0%Z /\
     running s' = running s /\ tick s' = tick s /\ history_len s' = history_len s /\
     anomaly_active s' = anomaly_active s /\ anomaly_type s' = anomaly_type s /\
     pressure_hist s' = pressure_hist s /\ flow_hist s' = flow_hist s /\
     nrw_percent s' = nrw_percent s /\ energy_kwh s' = energy_kwh s /\
     uptime_pct s' = uptime_pct s /\
     pump_status s' = pump_status s /\ valve_status s' = valve_status s) /\
  for_each (command_statements Clear) (fun st => st) s w = _clear_alerts s w /\
  (reachable s -> forall b, valid_block b ->
     exists s1 w1,
       run_block b (set_alerts [] s) w = Returns tt s1 w1 /\
       command_split Clear b s w = Returns tt (set_total_alerts 0 s1) w1).
Proof.
  split; [|split].
  - eexists. split; [reflexivity|]. by repeat split.
  - reflexivity.
  - intros Hr b Hb. pose proof (reachable_Inv s Hr) as HI.
    destruct (block_returns b (set_alerts [] s) w (Inv_set_alerts_nil s HI) Hb)
      as (s1 & w1 & Hexec & _).
    exists s1, w1. split; [done|].
    unfold command_split. simpl. unfold bind at 1, modify at 1.
    by rewrite (bind_returns _ _ _ _ _ _ _ Hexec).
Qed.

(** C7.  On a reachable state [zone_status] returns, changes neither the
    simulator nor the outside world, and its value is the one the
    specification's derivation gives from the zone's anomaly, its newest
    pressure sample and the two thresholds of the zone. *)
Theorem zone_status_refines (s : WaterSimulator) (w : W) i (z : string) :
  reachable s -> (i, z) ∈ enumerate ZONES ->
  exists d p min_ok base,
    pressure_hist s !! z = Some d /\ last (items d) = Some p /\
    ZONE_MIN_OK !! i = Some min_ok /\ ZONE_BASE_PRESSURE !! i = Some base /\
    zone_status z s w =
    Returns (zone_status_spec (anomaly_of (anomaly_type s !! z)) p min_ok base) s w.
Proof.
  intros Hr Hiz. pose proof (reachable_Inv s Hr) as HI.
  pose proof (enumerate_ZONES_zone i z Hiz) as Hz.
  destruct (inv_pressure s HI z Hz) as (d & Hd & Hl & _).
  destruct (last (items d)) as [p|] eqn:Hlast.
  2:{ apply last_None in Hlast. rewrite Hlast in Hl. done. }
  destruct (inv_zones s HI z Hz) as [b Hb].
  pose proof (inv_coherent s HI z) as Hco. rewrite Hb in Hco.
  assert (exists min_ok base, list_index ZONES z = Some i /\
            ZONE_MIN_OK !! i = Some min_ok /\ ZONE_BASE_PRESSURE !! i = Some base)
    as (min_ok & base & Hidx & Hmin & Hbase).
  { apply elem_of_enumerate_ZONES in Hiz.
    destruct Hiz as [[-> ->]|[[-> ->]|[[-> ->]|[-> ->]]]]; by eexists _, _. }
  exists d, p, min_ok, base. do 4 (split; [done|]).
  unfold zone_status, current_pressure, bind at 1, bind at 1, dict_get at 1.
  rewrite Hd. unfold deque_last. rewrite Hlast. unfold ret at 1. rewrite Hidx.
  unfold bind at 1, dict_get at 1. rewrite Hb.
  destruct b.
  - destruct (anomaly_type s !! z) as [[k|]|] eqn:Hty; try done.
    unfold bind at 1, dict_get at 1. rewrite Hty.
    unfold coherent_at, ANOMALY_TYPES in Hco. rewrite !elem_of_cons, elem_of_nil in Hco.
    destruct Hco as [->|[->|[->|[]]]]; reflexivity.
  - destruct (anomaly_type s !! z) as [[k|]|] eqn:Hty; try done.
    unfold bind at 1, list_get at 1. rewrite Hmin. simpl.
    destruct (Qltb p min_ok); [done|].
    unfold bind at 1, list_get at 1. rewrite Hbase.
    by destruct (Qltb (base + 0.8) p).
Qed.

(** C8.  In every reachable state [nrw_percent] lies in [10, 35] and
    [uptime_pct] in [90, 100].  A tick returns with [energy_kwh] not
    lower than before; when the new tick count is not a multiple of 10 the
    three metrics are unchanged; when it is, [uptime_pct] is 100.0 if no
    zone is flagged and [max(90.0, 100 - active * 2.5)] otherwise.
    Commands leave the three metrics as they are. *)
Theorem metrics_bounds (s : WaterSimulator) (w : W) :
  reachable s ->
  (10 <= nrw_percent s <= 35)%Q /\ (90 <= uptime_pct s <= 100)%Q /\
  (exists s' w', step s w = Returns tt s' w' /\
     tick s' = (tick s + 1)%Z /\
     (energy_kwh s <= energy_kwh s')%Q /\
     ((tick s' mod 10)%Z <> 0%Z ->
        nrw_percent s' = nrw_percent s /\ energy_kwh s' = energy_kwh s /\
        uptime_pct s' = uptime_pct s) /\
     ((tick s' mod 10)%Z = 0%Z ->
        (active_count s' = 0%Z -> uptime_pct s' = 100.0%Q) /\
        (active_count s' <> 0%Z ->
           uptime_pct s' = max 90.0 (100 - inject_Z (active_count s') * 2.5)))) /\
  (forall c,
     nrw_percent (final (run_command c s w)) = nrw_percent s /\
     energy_kwh (final (run_command c s w)) = energy_kwh s /\
     uptime_pct (final (run_command c s w)) = uptime_pct s).
Proof.
  intros Hr. pose proof (reachable_Inv s Hr) as HI.
  split; [by apply inv_nrw|]. split; [by apply inv_uptime|]. split.
  - destruct (step_sound s w HI) as (s' & w' & Hexec & s4 & Hzs & Hm).
    exists s', w'. split; [done|].
    destruct (zones_rel_frame _ _ _ Hzs) as (Et & En & Ee & Eu & _ & _).
    simpl in Et, En, Ee, Eu.
    destruct Hm as [Hskip|g u Hten Hu]; simpl; rewrite ?Et, ?En, ?Ee, ?Eu.
    + split; [done|]. split; [lra|]. split; [done|]. by intros ?.
    + split; [done|]. split; [lra|]. split; [by intros ?|]. intros _.
      change (active_count (set_uptime_pct _ _)) with (active_count s4).
      unfold uptime_of. split.
      * by intros ->.
      * intros Hne. by destruct (Z.eqb_spec (active_count s4) 0).
  - intros [zone|idx|]; simpl; try done.
    rewrite toggle_valve_exec. destruct (index _ _); [|done]. by destruct (_ !! _).
Qed.

(** C9 (as amended).  The code takes no lock, so a command can take
    effect between two blocks of a tick.  [toggle_valve] commutes with a
    tick: delivered after any number [k] of the tick's blocks, it leaves
    the same simulator and outside world as delivered after the whole
    tick, and as delivered before it.  [_toggle_sim] pressed after any
    number of blocks of a pass of [_sim_loop] is [_toggle_sim] pressed
    after that pass: the pass has read [_sim_running] already.  Neither
    holds for [resolve_anomaly] and [_clear_alerts]: each has a run from a
    reachable state in which the command, delivered after the first block
    of a tick, leaves a result that differs from the one of delivering it
    before the tick and from the one of delivering it after. *)
Theorem tick_command_interleavings (s : WaterSimulator) (w : W) (k : nat) idx app :
  reachable s ->
  step_interleaved k (Toggle idx) s w = bind step (fun _ => deliver (Toggle idx)) s w /\
  step_interleaved k (Toggle idx) s w = bind (deliver (Toggle idx)) (fun _ => step) s w /\
  pass_with_toggle k app s w = (_toggle_sim app, _sim_loop_pass app s w) /\
  (reachable (H := Tape.runtime) sim9 /\
   step_interleaved (H := Tape.runtime) 1 (Resolve zoneA) sim9 quiet_tick <>
     bind (deliver (Resolve zoneA)) (fun _ => step (H := Tape.runtime)) sim9 quiet_tick /\
   step_interleaved (H := Tape.runtime) 1 (Resolve zoneA) sim9 quiet_tick <>
     bind (step (H := Tape.runtime)) (fun _ => deliver (Resolve zoneA)) sim9 quiet_tick) /\
  (reachable (H := Tape.runtime) sim0 /\
   step_interleaved (H := Tape.runtime) 1 Clear sim0 two_injections <>
     bind (deliver Clear) (fun _ => step (H := Tape.runtime)) sim0 two_injections /\
   step_interleaved (H := Tape.runtime) 1 Clear sim0 two_injections <>
     bind (step (H := Tape.runtime)) (fun _ => deliver Clear) sim0 two_injections).
Proof.
  intros Hr. pose proof (reachable_Inv s Hr) as HI.
  set (s0 := set_tick (tick s + 1) s).
  set (bs := tick_blocks (tick s + 1)).
  assert (HI0 : Inv s0) by (by apply Inv_set_tick).
  pose proof (valid_tick_blocks (tick s + 1)) as Hbs. fold bs in Hbs.
  assert (Hpre : Forall valid_block (take k bs)) by (by apply Forall_take).
  assert (Hpost : Forall valid_block (drop k bs)) by (by apply Forall_drop).
  destruct (blocks_return (take k bs) s0 w HI0 Hpre) as (s1 & w1 & Hexec1 & HI1).
  destruct (blocks_return (drop k bs) s1 w1 HI1 Hpost) as (s2 & w2 & Hexec2 & HI2).
  assert (Hstep : step s w = Returns tt s2 w2).
  { rewrite step_as_blocks. fold s0 bs. rewrite <- (take_drop k bs), for_each_app.
    by rewrite (bind_returns _ _ _ _ _ _ _ Hexec1). }
  assert (Hv1 : valve_status s1 = valve_status s).
  { change s1 with (final (Returns (W:=W) tt s1 w1)). rewrite <- Hexec1.
    by rewrite valve_blind_preserves
      by (apply valve_blind_for_each, valve_blind_run_block). }
  assert (Hv2 : valve_status s2 = valve_status s).
  { rewrite <- Hv1. change s2 with (final (Returns (W:=W) tt s2 w2)). rewrite <- Hexec2.
    by rewrite valve_blind_preserves
      by (apply valve_blind_for_each, valve_blind_run_block). }
  assert (Hinter : step_interleaved k (Toggle idx) s w =
                   Returns tt (set_valve_status (toggled idx (valve_status s)) s2) w2).
  { unfold step_interleaved, bind at 1, modify at 1, bind at 1, gets at 1.
    change (tick (set_tick (tick s + 1) s)) with (tick s + 1)%Z. fold s0 bs.
    rewrite (bind_returns _ _ _ _ _ _ _ Hexec1).
    rewrite (bind_returns _ _ _ _ _ _ _ (deliver_toggle idx s1 w1)).
    rewrite (valve_blind_for_each _ _ valve_blind_run_block), Hexec2, Hv1. done. }
  split; [|split; [|split; [|split]]].
  - rewrite Hinter, (bind_returns _ _ _ _ _ _ _ Hstep), deliver_toggle, Hv2. done.
  - rewrite Hinter, (bind_returns _ _ _ _ _ _ _ (deliver_toggle idx s w)).
    assert (valve_blind (W := W) (step (W:=W))) as Hblind.
    { unfold step. pose proof valve_blind_step_zone. pose proof valve_blind_step_metrics.
      apply valve_blind_bind; [by apply valve_blind_modify|intros _].
      apply valve_blind_bind; [by apply valve_blind_gets|intros t].
      apply valve_blind_bind; [|done].
      apply valve_blind_for_each. by intros [i z]. }
    by rewrite Hblind, Hstep.
  - apply pass_with_toggle_after.
  - split; [apply sim9_reachable|].
    split; intros E.
    + apply (f_equal (fun o => pressure_hist (final o) !! zoneA)) in E.
      by vm_compute in E.
    + apply (f_equal (fun o => uptime_pct (final o))) in E.
      by vm_compute in E.
  - split; [apply sim0_reachable|].
    split; intros E; apply (f_equal (fun o => total_alerts (final o))) in E;
      by vm_compute in E.
Qed.

(** C10 (as amended).  In every state reached by whole operations, and
    for every key, the flag is on exactly when the stored type is one of
    the three anomaly types and off exactly when the stored type is
    [None]; the four configured zones always have a flag.  The states left
    by a tick, by each block of a tick and by each command, each run to its
    end, are reachable again, so every whole operation preserves this. *)
Theorem flag_type_coherent (s : WaterSimulator) (w : W) :
  reachable s ->
  (forall z,
     (anomaly_active s !! z = Some true <->
      exists k, k ∈ ANOMALY_TYPES /\ anomaly_type s !! z = Some (Some k)) /\
     (anomaly_active s !! z = Some false <-> anomaly_type s !! z = Some None) /\
     (z ∈ ZONES -> is_Some (anomaly_active s !! z))) /\
  reachable (final (step s w)) /\
  (forall b, valid_block b -> reachable (final (run_block b s w))) /\
  (forall c, reachable (final (run_command c s w))).
Proof.
  intros Hr. pose proof (reachable_Inv s Hr) as HI.
  split; [|split; [|split]].
  - intros z. pose proof (inv_coherent s HI z) as Hco. unfold coherent_at in Hco.
    split; [|split].
    + split.
      * intros Hon. rewrite Hon in Hco.
        destruct (anomaly_type s !! z) as [[k|]|]; try done. by exists k.
      * intros (k & Hk & Hty). rewrite Hty in Hco.
        by destruct (anomaly_active s !! z) as [[]|].
    + split.
      * intros Hoff. rewrite Hoff in Hco.
        by destruct (anomaly_type s !! z) as [[k|]|].
      * intros Hty. rewrite Hty in Hco.
        by destruct (anomaly_active s !! z) as [[]|].
    + by apply inv_zones.
  - by apply reachable_step.
  - intros b Hb. by apply reach_block.
  - intros c. by apply reach_command.
Qed.

End Claims.

(** ** Concrete runs on the replayable runtime *)

Section Runs.
Import Tape.

(** Zone A is the first configured zone. *)
Lemma zoneA_enumerated : (0%nat, zoneA) ∈ enumerate ZONES.
Proof. apply elem_of_enumerate_ZONES. by left. Defined.

Lemma zoneC_enumerated : (2%nat, zoneC) ∈ enumerate ZONES.
Proof. apply elem_of_enumerate_ZONES. right. right. by left. Defined.

Lemma zoneA_configured : zoneA ∈ ZONES.
Proof. apply elem_of_ZONES. by left. Defined.

(** C1, counterexample: resolving a zone that is not configured is not
    rejected; the call returns and both anomaly dictionaries have grown by
    the unknown name. *)
Lemma resolve_unknown_zone_accepted :
  ("Zone X" ∉ ZONES) /\
  anomaly_active sim0 !! "Zone X" = None /\
  exists s',
    resolve_anomaly (W := list Z) "Zone X" sim0 [] = Returns tt s' [] /\
    anomaly_active s' !! "Zone X" = Some false /\
    anomaly_type s' !! "Zone X" = Some None.
Proof.
  split; [|split].
  - rewrite elem_of_ZONES. intuition discriminate.
  - by vm_compute.
  - eexists. split; [reflexivity|]. split; by vm_compute.
Qed.

(** C3, counterexample: the value a flow history is seeded with is not a
    constant of the zone.  Two start-ups with different draws seed zone A
    with 8 and with 11. *)
Lemma flow_seed_not_zone_constant :
  ~ exists base_flow : string -> Q,
      forall (w : list Z) z d, z ∈ ZONES ->
        flow_hist (__init__ w).1 !! z = Some d ->
        Forall (fun x => (x == base_flow z)%Q) (items d).
Proof.
  intros [base_flow Hbase].
  destruct (flow_hist (__init__ (W := list Z) []).1 !! zoneA) as [d1|] eqn:E1;
    [|by vm_compute in E1].
  destruct (flow_hist (__init__ (W := list Z) [500%Z]).1 !! zoneA) as [d2|] eqn:E2;
    [|by vm_compute in E2].
  pose proof (Hbase _ _ _ zoneA_configured E1) as H1.
  pose proof (Hbase _ _ _ zoneA_configured E2) as H2.
  vm_compute in E1, E2.
  injection E1 as <-. injection E2 as <-. simpl in H1, H2.
  apply Forall_inv in H1. apply Forall_inv in H2.
  rewrite <- H2 in H1. by vm_compute in H1.
Qed.

(** C9, counterexample: [_clear_alerts] arriving after the first block of a
    tick (zone A's iteration) gives a result that is neither the one of
    clearing before the tick nor the one of clearing after it. *)
Lemma clear_interleaved_differs :
  step_interleaved (W := list Z) 1 Clear sim0 two_injections <>
    bind (deliver Clear) (fun _ => step) sim0 two_injections /\
  step_interleaved (W := list Z) 1 Clear sim0 two_injections <>
    bind step (fun _ => deliver Clear) sim0 two_injections.
Proof.
  split; intros E; apply (f_equal (fun o => total_alerts (final o))) in E;
    by vm_compute in E.
Qed.

(** The three outcomes side by side. *)
Example clear_interleaved_counts :
  total_alerts (final (step_interleaved (W := list Z) 1 Clear sim0 two_injections)) = 1%Z /\
  total_alerts (final (bind (deliver Clear) (fun _ => step) sim0 two_injections)) = 2%Z /\
  total_alerts (final (bind step (fun _ => deliver Clear) sim0 two_injections)) = 0%Z /\
  length (alerts (final (step_interleaved (W := list Z) 1 Clear sim0 two_injections))) = 1%nat.
Proof. by vm_compute. Qed.

(** [resolve_anomaly] after the first block of the tenth tick, while zones
    A and B are flagged and zone A leaks: zone A's newest sample carries
    the leak's penalty and the uptime counts one active zone.  Resolving before the tick gives the
    sample without the penalty, resolving after it the uptime of two
    active zones. *)
Example resolve_interleaved_outcomes :
  let newest (o : outcome (list Z) unit) :=
    (pressure_hist (final o) !! zoneA) ≫= (fun d => last (items d)) in
  let inter := step_interleaved (H := Tape.runtime) 1 (Resolve zoneA) sim9 quiet_tick in
  let before := bind (deliver (Resolve zoneA)) (fun _ => step (H := Tape.runtime)) sim9 quiet_tick in
  let after := bind (step (H := Tape.runtime)) (fun _ => deliver (Resolve zoneA)) sim9 quiet_tick in
  (newest inter = Some 3.400%Q /\ uptime_pct (final inter) = 97.5%Q) /\
  (newest before = Some 3.800%Q /\ uptime_pct (final before) = 97.5%Q) /\
  (newest after = Some 3.400%Q /\ uptime_pct (final after) = 95.0%Q).
Proof. by vm_compute. Qed.

(** C6, counterexample: the two stores of [_clear_alerts] with the
    iteration of zone C between them, in which zone C is injected.  The
    call returns with one alert in the log and a counter of 0, a result
    neither order of the two whole operations gives. *)
Lemma clear_split_by_zone_iteration :
  reachable (H := Tape.runtime) sim1 /\ valid_block (Zone 2 2 zoneC) /\
  returned clear_split_run = true /\
  length (alerts (final clear_split_run)) = 1%nat /\
  total_alerts (final clear_split_run) = 0%Z /\
  clear_split_run <>
    bind (run_command Clear) (fun _ => run_block (H := Tape.runtime) (Zone 2 2 zoneC))
      sim1 injecting_iteration /\
  clear_split_run <>
    bind (run_block (H := Tape.runtime) (Zone 2 2 zoneC)) (fun _ => run_command Clear)
      sim1 injecting_iteration.
Proof.
  split; [apply sim1_reachable|]. split; [apply zoneC_enumerated|].
  split; [by vm_compute|]. split; [by vm_compute|]. split; [by vm_compute|].
  split; intros E.
  - apply (f_equal (fun o => total_alerts (final o))) in E. by vm_compute in E.
  - apply (f_equal (fun o => length (alerts (final o)))) in E. by vm_compute in E.
Qed.

(** C10, counterexample: the two stores of [resolve_anomaly] with the
    iteration of zone A between them, in which zone A is injected again.
    The flag is on and the stored type is [None]. *)
Lemma resolve_split_by_injection :
  reachable (H := Tape.runtime) sim1 /\ valid_block (Zone 2 0 zoneA) /\
  anomaly_active sim1 !! zoneA = Some true /\
  returned resolve_split_run = true /\
  anomaly_active (final resolve_split_run) !! zoneA = Some true /\
  anomaly_type (final resolve_split_run) !! zoneA = Some None /\
  ~ coherent_at (anomaly_active (final resolve_split_run) !! zoneA)
      (anomaly_type (final resolve_split_run) !! zoneA).
Proof.
  split; [apply sim1_reachable|]. split; [apply zoneA_enumerated|].
  split; [by vm_compute|]. split; [by vm_compute|].
  split; [by vm_compute|]. split; [by vm_compute|].
  intros Hco. by vm_compute in Hco.
Qed.

(** A zone can be injected and auto-resolved within one loop iteration:
    the alert is logged although the flag is off before and after. *)
Example inject_then_resolve_same_iteration :
  anomaly_active sim0 !! zoneA = Some false /\
  anomaly_active (final (step_zone (W := list Z) 1 0 zoneA sim0 [])) !! zoneA = Some false /\
  total_alerts (final (step_zone (W := list Z) 1 0 zoneA sim0 [])) = 1%Z.
Proof. by vm_compute. Qed.

(** C1 on a concrete state: the indices 4 and -5 are rejected, the index
    -1 flips the last valve, and an unknown zone is resolved. *)
Lemma zone_reference_handling_witness :
  reachable (H := Tape.runtime) sim1 /\
  toggle_valve (W := list Z) 4 sim1 [] = Raises IndexError sim1 [] /\
  toggle_valve (W := list Z) (-5) sim1 [] = Raises IndexError sim1 [] /\
  (exists v, valve_status sim1 !! Z.to_nat (-1 mod 4) = Some v /\
     toggle_valve (W := list Z) (-1) sim1 [] =
     Returns tt
       (set_valve_status (<[Z.to_nat (-1 mod 4) := negb v]> (valve_status sim1)) sim1) []) /\
  (exists s', resolve_anomaly (W := list Z) "Zone X" sim1 [] = Returns tt s' [] /\
     anomaly_active s' = <["Zone X" := false]> (anomaly_active sim1)).
Proof.
  split; [apply sim1_reachable|].
  destruct (zone_reference_handling sim1 [] sim1_reachable) as (Hout & Hin & Hres).
  split; [apply Hout; lia|]. split; [apply Hout; lia|].
  split; [apply Hin; lia|].
  destruct (Hres "Zone X") as (s' & Hexec & Ha & _).
  exists s'. split; [exact Hexec|exact Ha].
Defined.

(** C2 on a concrete run: the iteration of zone A from the start-up state. *)
Lemma alert_iff_injection_witness :
  reachable (H := Tape.runtime) sim0 /\ (0%nat, zoneA) ∈ enumerate ZONES /\
  exists s1 w1 s' w',
    inject_block zoneA sim0 (random_gauss 0 0.05 two_injections).2 = Returns tt s1 w1 /\
    step_zone 1 0 zoneA sim0 two_injections = Returns tt s' w' /\
    alerts s' = alerts s1 /\ total_alerts s' = total_alerts s1.
Proof.
  split; [apply sim0_reachable|]. split; [apply zoneA_enumerated|].
  destruct (alert_iff_injection sim0 two_injections 1 0 zoneA
              sim0_reachable zoneA_enumerated)
    as (s1 & w1 & s' & w' & H1 & H2 & H3 & H4 & _).
  by exists s1, w1, s', w'.
Defined.

(** C3 on a concrete state: the histories after one tick. *)
Lemma history_buffers_witness :
  reachable (H := Tape.runtime) sim1 /\
  forall z, z ∈ ZONES ->
    full_history (pressure_hist sim1) z /\ full_history (flow_hist sim1) z.
Proof.
  split; [apply sim1_reachable|].
  apply (history_buffers sim1 [] sim1_reachable).
Defined.


(** C6 on a concrete run: the log cleared around the iteration of zone C. *)
Lemma clear_alerts_frame_witness :
  reachable (H := Tape.runtime) sim1 /\ valid_block (Zone 2 2 zoneC) /\
  exists s1 w1,
    run_block (H := Tape.runtime) (Zone 2 2 zoneC) (set_alerts [] sim1) injecting_iteration =
      Returns tt s1 w1 /\
    command_split (H := Tape.runtime) Clear (Zone 2 2 zoneC) sim1 injecting_iteration =
      Returns tt (set_total_alerts 0 s1) w1.
Proof.
  split; [apply sim1_reachable|]. split; [apply zoneC_enumerated|].
  destruct (clear_alerts_frame (H := Tape.runtime) sim1 injecting_iteration)
    as (_ & _ & Hsplit).
  exact (Hsplit sim1_reachable (Zone 2 2 zoneC) zoneC_enumerated).
Defined.

(** C5 on a concrete state: the log after two injections. *)
Lemma alert_log_bounded_witness :
  reachable (H := Tape.runtime) sim1 /\ (length (alerts sim1) <= 50)%nat.
Proof.
  split; [apply sim1_reachable|].
  apply (alert_log_bounded sim1 [] sim1_reachable).
Defined.

(** C7 on a concrete state: the status of zone A while it leaks. *)
Lemma zone_status_refines_witness :
  reachable (H := Tape.runtime) sim1 /\ (0%nat, zoneA) ∈ enumerate ZONES /\
  exists d p min_ok base,
    pressure_hist sim1 !! zoneA = Some d /\ last (items d) = Some p /\
    ZONE_MIN_OK !! 0%nat = Some min_ok /\ ZONE_BASE_PRESSURE !! 0%nat = Some base /\
    zone_status (W := list Z) zoneA sim1 [] =
    Returns (zone_status_spec (anomaly_of (anomaly_type sim1 !! zoneA)) p min_ok base)
            sim1 [].
Proof.
  split; [apply sim1_reachable|]. split; [apply zoneA_enumerated|].
  apply (zone_status_refines sim1 [] 0 zoneA sim1_reachable zoneA_enumerated).
Defined.

(** C8 on a concrete state. *)
Lemma metrics_bounds_witness :
  reachable (H := Tape.runtime) sim1 /\
  (10 <= nrw_percent sim1 <= 35)%Q /\ (90 <= uptime_pct sim1 <= 100)%Q.
Proof.
  split; [apply sim1_reachable|].
  destruct (metrics_bounds sim1 [] sim1_reachable) as (Hn & Hu & _).
  by split.
Defined.

(** C9 on a concrete run: valve 1 toggled, and the simulation paused,
    after two blocks of the first tick. *)
Lemma tick_command_interleavings_witness :
  reachable (H := Tape.runtime) sim0 /\
  step_interleaved 2 (Toggle 1) sim0 two_injections =
    bind step (fun _ => deliver (Toggle 1)) sim0 two_injections /\
  step_interleaved 2 (Toggle 1) sim0 two_injections =
    bind (deliver (Toggle 1)) (fun _ => step) sim0 two_injections /\
  pass_with_toggle 2 (App true) sim0 two_injections =
    (_toggle_sim (App true), _sim_loop_pass (App true) sim0 two_injections).
Proof.
  split; [apply sim0_reachable|].
  destruct (tick_command_interleavings sim0 two_injections 2 1 (App true) sim0_reachable)
    as (H1 & H2 & H3 & _).
  split; [exact H1|]. split; [exact H2|exact H3].
Defined.

(** C10 on a concrete state: zone A after its injection. *)
Lemma flag_type_coherent_witness :
  reachable (H := Tape.runtime) sim1 /\
  (anomaly_active sim1 !! zoneA = Some true <->
   exists k, k ∈ ANOMALY_TYPES /\ anomaly_type sim1 !! zoneA = Some (Some k)).
Proof.
  split; [apply sim1_reachable|].
  destruct (flag_type_coherent sim1 [] sim1_reachable) as (Hco & _).
  apply (Hco zoneA).
Defined.

(** After the tick zone A is flagged with a leak and reports LEAK. *)
Example sim1_zoneA_status :
  anomaly_active sim1 !! zoneA = Some true /\
  anomaly_type sim1 !! zoneA = Some (Some "leak") /\
  zone_status (W := list Z) zoneA sim1 [] = Returns "LEAK" sim1 [].
Proof.
  split; [by vm_compute|]. split; [by vm_compute|].
  unfold zone_status, current_pressure, bind, dict_get, deque_last.
  by vm_compute.
Qed.

End Runs.

(** * Further properties of the engine and of the presentation layer *)

(** ** The second invariant *)

Lemma Forall_deque_append (P : Q -> Prop) d x :
  Forall P (items d) -> P x -> Forall P (items (deque_append d x)).
Proof.
  intros Hd Hx. unfold deque_append; simpl.
  assert (Forall P (items d ++ [x])) as Hall by (apply Forall_app; auto).
  destruct (_ <? _)%nat; [by apply Forall_drop|done].
Qed.

Lemma hist_append_floor (lo : Q) m z x :
  (lo <= x)%Q ->
  (forall z' d, m !! z' = Some d -> Forall (fun y => (lo <= y)%Q) (items d)) ->
  forall z' d, hist_append z x m !! z' = Some d ->
    Forall (fun y => (lo <= y)%Q) (items d).
Proof.
  intros Hx Hm z' d. unfold hist_append. rewrite lookup_alter.
  case_decide as E; [|apply Hm]. subst z'.
  destruct (m !! z) as [d0|] eqn:Hd0; simpl; [|done].
  intros [= <-]. apply Forall_deque_append; [|done]. by eapply Hm.
Qed.

Lemma hist_append_keys m z x z' :
  is_Some (hist_append z x m !! z') -> is_Some (m !! z').
Proof.
  unfold hist_append. rewrite lookup_alter. case_decide as E; [|done].
  subst z'. by destruct (m !! z).
Qed.

Lemma Inv2_alerted zone k ts s :
  zone ∈ ZONES -> k ∈ ANOMALY_TYPES -> (length (alerts s) <= 50)%nat -> Inv2 s ->
  Inv2 (alerted zone (Some k) ts s).
Proof.
  intros Hz Hk Hlen [Hp Hf Hc Hpk Hfk Ha Hh].
  assert (Hwf : Forall well_formed_alert
            ((ts, alert_message zone (Some k), Some k) :: alerts s)).
  { constructor; [|done]. exists zone, k. by repeat split. }
  constructor; try done.
  - rewrite alerts_alerted by done.
    rewrite length_take. cbn [length]. unfold alerted, set_alerts, set_total_alerts; cbn [total_alerts]. lia.
  - rewrite alerts_alerted by done. by apply Forall_take.
Qed.

Lemma Inv2_injected z c ts s :
  z ∈ ZONES -> c ∈ ANOMALY_TYPES -> Inv s -> Inv2 s -> Inv2 (injected z c ts s).
Proof.
  intros Hz Hc HI HI2. unfold injected. apply Inv2_alerted; try done.
  - simpl. by apply inv_alerts.
  - by destruct HI2.
Qed.

Lemma Inv2_resolved z s : Inv2 s -> Inv2 (resolved z s).
Proof. by intros []. Qed.

Lemma Inv2_sampled z p f s :
  (0.3 <= p)%Q -> (0.5 <= f)%Q -> Inv2 s -> Inv2 (sampled z p f s).
Proof.
  intros Hp Hf [Hpf Hff Hc Hpk Hfk Ha Hh]. constructor; simpl; try done.
  - by apply hist_append_floor.
  - by apply hist_append_floor.
  - intros z' Hz'. by apply Hpk, (hist_append_keys _ z p).
  - intros z' Hz'. by apply Hfk, (hist_append_keys _ z f).
Qed.

Section Invariant2.
Context {W : Type} `{Runtime W}.

Lemma Inv2_init (w : W) : Inv2 (__init__ w).1.
Proof.
  unfold __init__, init_flow_hist, init_pressure_hist.
  cbn -[replicate deque_new round lookup insert random_uniform].
  pose proof (random_uniform_range 8 14 w) as R1.
  destruct (random_uniform 8 14 w) as [u1 w1].
  pose proof (random_uniform_range 8 14 w1) as R2.
  destruct (random_uniform 8 14 w1) as [u2 w2].
  pose proof (random_uniform_range 8 14 w2) as R3.
  destruct (random_uniform 8 14 w2) as [u3 w3].
  pose proof (random_uniform_range 8 14 w3) as R4.
  destruct (random_uniform 8 14 w3) as [u4 w4].
  assert (Hle : (8 <= 14)%Q) by lra.
  specialize (R1 Hle). specialize (R2 Hle). specialize (R3 Hle). specialize (R4 Hle).
  simpl in R1, R2, R3, R4.
  assert (Hseed : forall u, (8 <= u)%Q -> (0.5 <= round u 2)%Q).
  { intros u Hu. apply round_flow_floor. lra. }
  assert (Hitems : forall x, items (deque_new (replicate 120 x) 120) = replicate 120 x).
  { intros x. unfold deque_new. by rewrite length_replicate. }
  constructor; cbn -[replicate deque_new round lookup insert]; try done.
  - intros z d. rewrite !lookup_insert.
    repeat case_decide; try (rewrite lookup_empty; done);
      intros Hd; apply (inj Some) in Hd; subst d;
      rewrite Hitems; apply Forall_replicate; done.
  - intros z d. rewrite !lookup_insert.
    repeat case_decide; try (rewrite lookup_empty; done);
      intros Hd; apply (inj Some) in Hd; subst d;
      rewrite Hitems; apply Forall_replicate, Hseed; tauto.
  - intros z. rewrite !lookup_insert, elem_of_ZONES.
    repeat case_decide; subst; try tauto. rewrite lookup_empty. by intros [].
  - intros z. rewrite !lookup_insert, elem_of_ZONES.
    repeat case_decide; subst; try tauto. rewrite lookup_empty. by intros [].
Qed.

Lemma reachable_Inv2 (s : WaterSimulator) : reachable s -> Inv2 s.
Proof.
  induction 1 as [w|s c w Hr IH|s b w Hr IH Hb].
  - apply Inv2_init.
  - pose proof (reachable_Inv s Hr) as HI. destruct c as [zone|idx|]; simpl.
    + by apply Inv2_resolved.
    + rewrite toggle_valve_exec.
      destruct (index _ _) as [k|]; [destruct (valve_status s !! k)|];
        simpl; by destruct IH.
    + destruct IH. by constructor.
  - pose proof (reachable_Inv s Hr) as HI. destruct b as [|t i z|t]; simpl.
    + by destruct IH.
    + destruct (step_zone_trace t i z s w HI Hb)
        as (s1 & w1 & s2 & p & f & w' & _ & Hi & He & Hp & Hf & ->). simpl.
      apply Inv2_sampled; try done.
      assert (Inv2 s1) as HI21.
      { destruct Hi as [|c ts Hoff Hc]; [done|].
        apply Inv2_injected; try done. by eapply enumerate_ZONES_zone. }
      destruct He; [done|by apply Inv2_resolved].
    + destruct (step_metrics_sound t s w HI) as (s' & w' & -> & Hm). simpl.
      destruct Hm; [done|]. by destruct IH.
Qed.

End Invariant2.

(** ** The engine *)

Lemma index_in_range {A} (l : list A) (idx : Z) :
  (- Z.of_nat (length l) <= idx < Z.of_nat (length l))%Z ->
  index l idx = Some (Z.to_nat (idx mod Z.of_nat (length l))) /\
  (Z.to_nat (idx mod Z.of_nat (length l)) < length l)%nat.
Proof.
  intros Hidx. unfold index.
  destruct (Z.leb_spec 0 idx), (Z.ltb_spec idx (Z.of_nat (length l)));
    simpl; try lia.
  - rewrite Z.mod_small by lia. split; [done|lia].
  - destruct (Z.leb_spec (- Z.of_nat (length l)) idx), (Z.ltb_spec idx 0);
      simpl; try lia.
    assert (idx mod Z.of_nat (length l) = Z.of_nat (length l) + idx)%Z as ->.
    { symmetry. apply (Z.mod_unique _ _ (-1)); lia. }
    split; [done|lia].
Qed.

Lemma index_out_of_range {A} (l : list A) (idx : Z) :
  (idx < - Z.of_nat (length l) \/ Z.of_nat (length l) <= idx)%Z ->
  index l idx = None.
Proof.
  intros Hidx. unfold index.
  destruct (Z.leb_spec 0 idx), (Z.ltb_spec idx (Z.of_nat (length l))),
    (Z.leb_spec (- Z.of_nat (length l)) idx), (Z.ltb_spec idx 0); simpl; try done; lia.
Qed.

Section EngineProperties.
Context {W : Type} `{Runtime W}.

(** X1.  Two [toggle_valve] calls with the same accepted index give back
    the simulator exactly as it was. *)
Theorem toggle_valve_involutive (s : WaterSimulator) (w : W) (idx : Z) :
  (- Z.of_nat (length (valve_status s)) <= idx < Z.of_nat (length (valve_status s)))%Z ->
  exists s1,
    toggle_valve idx s w = Returns tt s1 w /\
    toggle_valve idx s1 w = Returns tt s w.
Proof.
  intros Hidx. destruct (index_in_range _ _ Hidx) as [Hk Hlt].
  set (k := Z.to_nat (idx mod Z.of_nat (length (valve_status s)))) in *.
  destruct (lookup_lt_is_Some_2 _ _ Hlt) as [v Hv].
  eexists. split.
  - rewrite toggle_valve_exec, Hk, Hv. reflexivity.
  - rewrite toggle_valve_exec. simpl valve_status.
    unfold index in *. rewrite length_insert, Hk.
    rewrite list_lookup_insert_eq by done.
    rewrite list_insert_insert_eq, negb_involutive, list_insert_id by done.
    by destruct s.
Qed.

(** X2.  [resolve_anomaly] is idempotent, two calls for different zones
    commute, and on a reachable state a call for a zone whose flag is
    already off changes nothing at all. *)
Theorem resolve_anomaly_idempotent (s : WaterSimulator) (w : W) (z1 z2 : string) :
  final (resolve_anomaly z1 (final (resolve_anomaly z1 s w)) w) =
    final (resolve_anomaly z1 s w) /\
  final (resolve_anomaly z2 (final (resolve_anomaly z1 s w)) w) =
    final (resolve_anomaly z1 (final (resolve_anomaly z2 s w)) w) /\
  (reachable s -> anomaly_active s !! z1 = Some false ->
   resolve_anomaly z1 s w = Returns tt s w).
Proof.
  split; [|split].
  - simpl. unfold resolved, set_anomaly_type, set_anomaly_active. simpl.
    by rewrite !insert_insert_eq.
  - simpl. unfold resolved, set_anomaly_type, set_anomaly_active. simpl.
    destruct (decide (z1 = z2)) as [->|Hne]; [done|].
    f_equal; by apply insert_insert_ne.
  - intros Hr Hoff. pose proof (reachable_Inv s Hr) as HI.
    pose proof (inv_coherent s HI z1) as Hco. rewrite Hoff in Hco.
    destruct (anomaly_type s !! z1) as [[k|]|] eqn:Hty; try done.
    rewrite resolve_anomaly_exec. unfold resolved, set_anomaly_type, set_anomaly_active.
    simpl. rewrite !insert_id by done. by destruct s.
Qed.

(** X3.  In every reachable state every sample held in a pressure history
    is at least 0.3 and every sample held in a flow history at least 0.5
    (the start-up seeds included), so for a configured zone
    [current_pressure] and [current_flow] return such values and change
    nothing. *)
Theorem stored_samples_respect_floors (s : WaterSimulator) (w : W) (z : string) :
  reachable s -> z ∈ ZONES ->
  exists dp df p f,
    pressure_hist s !! z = Some dp /\ Forall (fun x => (0.3 <= x)%Q) (items dp) /\
    flow_hist s !! z = Some df /\ Forall (fun x => (0.5 <= x)%Q) (items df) /\
    current_pressure z s w = Returns p s w /\ (0.3 <= p)%Q /\
    current_flow z s w = Returns f s w /\ (0.5 <= f)%Q.
Proof.
  intros Hr Hz. pose proof (reachable_Inv s Hr) as HI.
  pose proof (reachable_Inv2 s Hr) as HI2.
  destruct (inv_pressure s HI z Hz) as (dp & Hdp & Hlp & _).
  destruct (inv_flow s HI z Hz) as (df & Hdf & Hlf & _).
  pose proof (inv_pressure_floor s HI2 z dp Hdp) as Hfp.
  pose proof (inv_flow_floor s HI2 z df Hdf) as Hff.
  destruct (last (items dp)) as [p|] eqn:Hp.
  2:{ apply last_None in Hp. by rewrite Hp in Hlp. }
  destruct (last (items df)) as [f|] eqn:Hf.
  2:{ apply last_None in Hf. by rewrite Hf in Hlf. }
  exists dp, df, p, f. do 4 (split; [done|]).
  unfold current_pressure, current_flow, bind, dict_get, deque_last.
  rewrite Hdp, Hdf, Hp, Hf.
  rewrite Forall_forall in Hfp, Hff.
  repeat split; try done.
  - apply Hfp. by apply last_Some_elem_of.
  - apply Hff. by apply last_Some_elem_of.
Qed.

(** X4.  Every alert in the log of a reachable state carries one of the
    three anomaly types, and its message is the one built for that type
    and a configured zone: the fallback message never appears. *)
Theorem logged_alerts_well_formed (s : WaterSimulator) (a : alert) :
  reachable s -> a ∈ alerts s ->
  exists zone k,
    zone ∈ ZONES /\ k ∈ ANOMALY_TYPES /\
    a.1.2 = alert_message zone (Some k) /\ a.2 = Some k /\
    forall z', a.1.2 <> "Alert in " +:+ z'.
Proof.
  intros Hr Ha. pose proof (inv_alert_entries s (reachable_Inv2 s Hr)) as Hwf.
  rewrite Forall_forall in Hwf. destruct (Hwf a Ha) as (zone & k & Hz & Hk & Hm & Hty).
  exists zone, k. do 4 (split; [done|]). intros z'. rewrite Hm.
  unfold ANOMALY_TYPES in Hk. rewrite !elem_of_cons, elem_of_nil in Hk.
  destruct Hk as [->|[->|[->|[]]]]; simpl; discriminate.
Qed.

(** X5.  For a name that is not a configured zone, [current_pressure],
    [current_flow] and [zone_status] raise [KeyError] in every reachable
    state and leave it as it was, also after [resolve_anomaly] has
    registered that name in the anomaly dictionaries: the history
    dictionaries never get a key outside [ZONES]. *)
Theorem unknown_zone_raises_KeyError (s : WaterSimulator) (w : W) (z : string) :
  reachable s -> z ∉ ZONES ->
  pressure_hist s !! z = None /\ flow_hist s !! z = None /\
  current_pressure z s w = Raises KeyError s w /\
  current_flow z s w = Raises KeyError s w /\
  zone_status z s w = Raises KeyError s w /\
  zone_status z (final (resolve_anomaly z s w)) w =
    Raises KeyError (final (resolve_anomaly z s w)) w.
Proof.
  intros Hr Hz. pose proof (reachable_Inv2 s Hr) as HI2.
  assert (Hp : pressure_hist s !! z = None).
  { destruct (pressure_hist s !! z) eqn:E; [|done].
    exfalso. apply Hz, (inv_pressure_keys s HI2). by rewrite E. }
  assert (Hf : flow_hist s !! z = None).
  { destruct (flow_hist s !! z) eqn:E; [|done].
    exfalso. apply Hz, (inv_flow_keys s HI2). by rewrite E. }
  do 2 (split; [done|]).
  unfold zone_status, current_pressure, current_flow, bind, dict_get. simpl.
  by rewrite Hp, Hf.
Qed.

(** X6.  The loop iteration of a zone that is already flagged logs no
    alert and never gives the zone another anomaly type: afterwards the
    zone either still has its flag and its type, or has been auto-resolved
    to flag off and type [None]. *)
Theorem active_zone_not_reinjected (s : WaterSimulator) (w : W) t i (z : string) :
  reachable s -> (i, z) ∈ enumerate ZONES ->
  anomaly_active s !! z = Some true ->
  exists s' w',
    step_zone t i z s w = Returns tt s' w' /\
    alerts s' = alerts s /\ total_alerts s' = total_alerts s /\
    ((anomaly_active s' !! z = Some true /\
      anomaly_type s' !! z = anomaly_type s !! z) \/
     (anomaly_active s' !! z = Some false /\ anomaly_type s' !! z = Some None)).
Proof.
  intros Hr Hiz Hon. pose proof (reachable_Inv s Hr) as HI.
  destruct (step_zone_trace t i z s w HI Hiz)
    as (s1 & w1 & s2 & p & f & w' & _ & Hi & He & _ & _ & Hexec).
  eexists _, _. split; [done|].
  destruct Hi as [|c ts Hoff Hc]; [|congruence].
  destruct He as [|_]; simpl.
  - do 2 (split; [done|]). by left.
  - do 2 (split; [done|]). right. by rewrite !lookup_insert_eq.
Qed.

(** X7.  The loop iteration of one zone leaves every other key of the
    four dictionaries (flags, types, both histories) exactly as it was. *)
Theorem zone_iterations_independent (s : WaterSimulator) (w : W) t i (z z' : string) :
  reachable s -> (i, z) ∈ enumerate ZONES -> z' <> z ->
  exists s' w',
    step_zone t i z s w = Returns tt s' w' /\
    anomaly_active s' !! z' = anomaly_active s !! z' /\
    anomaly_type s' !! z' = anomaly_type s !! z' /\
    pressure_hist s' !! z' = pressure_hist s !! z' /\
    flow_hist s' !! z' = flow_hist s !! z'.
Proof.
  intros Hr Hiz Hne. pose proof (reachable_Inv s Hr) as HI.
  destruct (step_zone_trace t i z s w HI Hiz)
    as (s1 & w1 & s2 & p & f & w' & _ & Hi & He & _ & _ & Hexec).
  eexists _, _. split; [done|].
  assert (z <> z') as Hne' by done.
  destruct Hi as [|c ts Hoff Hc], He as [|Hon]; simpl; unfold hist_append;
    rewrite ?lookup_alter_ne, ?lookup_insert_ne by done; done.
Qed.

(** X8.  The valve flags have no effect on a tick and a tick has none on
    them: [step] run on a simulator whose flags were replaced by any list
    [v] gives the outcome of [step] on the original simulator with the
    flags replaced by [v], for every simulator and outside world. *)
Theorem tick_ignores_valves (s : WaterSimulator) (w : W) (v : list bool) :
  step (set_valve_status v s) w = lift_valves v (step s w) /\
  valve_status (final (step s w)) = valve_status s.
Proof.
  assert (valve_blind (step (W := W))) as Hblind.
  { unfold step. pose proof valve_blind_step_zone. pose proof valve_blind_step_metrics.
    apply valve_blind_bind; [by apply valve_blind_modify|intros _].
    apply valve_blind_bind; [by apply valve_blind_gets|intros t].
    apply valve_blind_bind; [|done].
    apply valve_blind_for_each. by intros [i z]. }
  split; [apply Hblind|by apply valve_blind_preserves].
Qed.

End EngineProperties.

(** ** The presentation layer *)

Lemma elem_of_zone_cards (card : ZoneCard) :
  card ∈ zone_cards -> (zone_idx card, zone card) ∈ enumerate ZONES.
Proof.
  unfold zone_cards, enumerate, ZONES, ZoneCard_init. simpl. intros Hc.
  rewrite !elem_of_cons, elem_of_nil in Hc.
  destruct Hc as [->|[->|[->|[->|[]]]]]; apply elem_of_enumerate_ZONES; simpl; tauto.
Qed.

Lemma status_color_spec anomaly p min_ok base :
  status_color (zone_status_spec anomaly p min_ok base) <> C.muted.
Proof.
  unfold zone_status_spec. destruct anomaly; try done.
  by destruct (Qltb p min_ok), (Qltb (base + 0.8) p).
Qed.

Lemma int_bounds (x : Q) (n : Z) :
  (0 <= x <= inject_Z n)%Q -> (0 <= int x <= n)%Z.
Proof.
  intros [H0 Hn]. unfold int.
  assert (Qltb x 0 = false) as -> by (by apply Qltb_ge).
  split.
  - apply Qfloor_resp_le in H0. exact H0.
  - apply Qfloor_resp_le in Hn. by rewrite Qfloor_Z in Hn.
Qed.

Lemma int_monotone (x y : Q) : (0 <= x <= y)%Q -> (int x <= int y)%Z.
Proof.
  intros [H0 Hxy]. unfold int.
  assert (Qltb x 0 = false) as -> by (by apply Qltb_ge).
  assert (Qltb y 0 = false) as -> by (apply Qltb_ge; lra).
  by apply Qfloor_resp_le.
Qed.

Lemma anomaly_score_range (p base : Q) :
  (0 < base)%Q -> (0 <= min 1.0 (Qabs (p - base) / base * 3) <= 1)%Q.
Proof.
  intros Hbase.
  assert (0 <= Qabs (p - base) / base * 3)%Q as Hdev.
  { pose proof (Qabs_nonneg (p - base)) as Habs.
    assert (0 <= / base)%Q by (apply Qinv_le_0_compat; lra).
    unfold Qdiv. nra. }
  pose proof (min_ub_l 1.0 (Qabs (p - base) / base * 3)) as Hub.
  split; [|lra]. unfold min. destruct (Qltb _ _); lra.
Qed.

Section PresentationProperties.
Context {W : Type} `{Runtime W}.
Variable format_f : nat -> Q -> string.

Lemma zone_status_exec (s : WaterSimulator) (w : W) i (z : string) :
  Inv s -> (i, z) ∈ enumerate ZONES ->
  exists d p min_ok base b,
    pressure_hist s !! z = Some d /\ last (items d) = Some p /\
    ZONE_MIN_OK !! i = Some min_ok /\ ZONE_BASE_PRESSURE !! i = Some base /\
    (1.8 <= base)%Q /\
    list_index ZONES z = Some i /\
    anomaly_active s !! z = Some b /\
    (b = false -> anomaly_of (anomaly_type s !! z) = NoAnomaly) /\
    (b = true -> anomaly_of (anomaly_type s !! z) <> NoAnomaly) /\
    zone_status z s w =
    Returns (zone_status_spec (anomaly_of (anomaly_type s !! z)) p min_ok base) s w.
Proof.
  intros HI Hiz.
  pose proof (enumerate_ZONES_zone i z Hiz) as Hz.
  destruct (inv_pressure s HI z Hz) as (d & Hd & Hl & _).
  destruct (last (items d)) as [p|] eqn:Hlast.
  2:{ apply last_None in Hlast. rewrite Hlast in Hl. done. }
  destruct (inv_zones s HI z Hz) as [b Hb].
  pose proof (inv_coherent s HI z) as Hco. rewrite Hb in Hco.
  assert (exists min_ok base, list_index ZONES z = Some i /\
            ZONE_MIN_OK !! i = Some min_ok /\ ZONE_BASE_PRESSURE !! i = Some base /\
            (1.8 <= base)%Q)
    as (min_ok & base & Hidx & Hmin & Hbase & Hb18).
  { apply elem_of_enumerate_ZONES in Hiz.
    destruct Hiz as [[-> ->]|[[-> ->]|[[-> ->]|[-> ->]]]]; by eexists _, _. }
  exists d, p, min_ok, base, b. do 7 (split; [done|]).
  unfold zone_status, current_pressure, bind at 1, bind at 1, dict_get at 1.
  rewrite Hd. unfold deque_last. rewrite Hlast. unfold ret at 1. rewrite Hidx.
  unfold bind at 1, dict_get at 1. rewrite Hb.
  destruct b.
  - destruct (anomaly_type s !! z) as [[k|]|] eqn:Hty; try done.
    unfold bind at 1, dict_get at 1. rewrite Hty.
    unfold coherent_at, ANOMALY_TYPES in Hco. rewrite !elem_of_cons, elem_of_nil in Hco.
    destruct Hco as [->|[->|[->|[]]]]; by repeat split.
  - destruct (anomaly_type s !! z) as [[k|]|] eqn:Hty; try done.
    split; [done|]. split; [done|].
    unfold bind at 1, list_get at 1. rewrite Hmin. simpl.
    destruct (Qltb p min_ok); [done|].
    unfold bind at 1, list_get at 1. rewrite Hbase.
    by destruct (Qltb (base + 0.8) p).
Qed.

Lemma ZoneCard_update_exec (s : WaterSimulator) (w : W) (card : ZoneCard) :
  reachable s -> card ∈ zone_cards ->
  exists p f min_ok base b (v : bool),
    let st := zone_status_spec (anomaly_of (anomaly_type s !! zone card)) p min_ok base in
    (0.3 <= p)%Q /\ (0.5 <= f)%Q /\
    anomaly_active s !! zone card = Some b /\
    (b = false -> anomaly_of (anomaly_type s !! zone card) = NoAnomaly) /\
    (b = true -> anomaly_of (anomaly_type s !! zone card) <> NoAnomaly) /\
    valve_status s !! zone_idx card = Some v /\
    ZoneCard_update format_f card s w =
    Returns (CardView p (pressure_bar_color p min_ok base) (status_color st)
               ("● " +:+ st) (status_color st)
               ("P: " +:+ format_f 2 p +:+ " bar") (pressure_bar_color p min_ok base)
               ("F: " +:+ format_f 1 f +:+ " L/s")
               b
               (if v then "OPEN" else "CLOSED")
               (if v then C.green else C.red)) s w.
Proof.
  intros Hr Hcard. pose proof (reachable_Inv s Hr) as HI.
  pose proof (reachable_Inv2 s Hr) as HI2.
  pose proof (elem_of_zone_cards card Hcard) as Hiz.
  pose proof (enumerate_ZONES_zone _ _ Hiz) as Hz.
  destruct (zone_status_exec s w _ _ HI Hiz)
    as (d & p & min_ok & base & b & Hd & Hlast & Hmin & Hbase & _ & _ & Hb & Hoff & Hon & Hst).
  destruct (inv_flow s HI _ Hz) as (df & Hdf & Hlf & _).
  destruct (last (items df)) as [f|] eqn:Hf.
  2:{ apply last_None in Hf. by rewrite Hf in Hlf. }
  assert (zone_idx card < length (valve_status s))%nat as Hlt.
  { rewrite (inv_valves s HI). apply elem_of_enumerate_ZONES in Hiz. lia. }
  destruct (lookup_lt_is_Some_2 _ _ Hlt) as [v Hv].
  exists p, f, min_ok, base, b, v. cbv zeta.
  split. { pose proof (inv_pressure_floor s HI2 _ _ Hd) as Hall.
           rewrite Forall_forall in Hall. by apply Hall, last_Some_elem_of. }
  split. { pose proof (inv_flow_floor s HI2 _ _ Hdf) as Hall.
           rewrite Forall_forall in Hall. by apply Hall, last_Some_elem_of. }
  do 4 (split; [done|]).
  unfold ZoneCard_update, current_pressure, current_flow.
  unfold bind at 1, bind at 1, dict_get at 1. rewrite Hd.
  unfold deque_last at 1. rewrite Hlast. unfold ret at 1.
  unfold bind at 1, bind at 1, dict_get at 1. rewrite Hdf.
  unfold deque_last at 1. rewrite Hf. unfold ret at 1.
  unfold bind at 1. rewrite Hst.
  unfold bind at 1, list_get at 1. rewrite Hmin.
  unfold bind at 1, list_get at 1. rewrite Hbase.
  unfold bind at 1, dict_get at 1. rewrite Hb.
  unfold bind at 1, gets at 1, bind at 1, list_get at 1. rewrite Hv.
  done.
Qed.

(** X9.  On a reachable state, [update] of each of the four cards
    returns and changes neither simulator nor outside world; the gauge
    shows a pressure of at least 0.3; the resolve button is shown exactly
    when the zone is flagged; the status dot never falls back to the
    unknown-status colour; the valve button reads OPEN exactly when the
    valve flag of the card's index is on. *)
Theorem zone_card_view (s : WaterSimulator) (w : W) (card : ZoneCard) :
  reachable s -> card ∈ zone_cards ->
  exists view,
    ZoneCard_update format_f card s w = Returns view s w /\
    (0.3 <= gauge_value view)%Q /\
    (resolve_visible view = true <-> anomaly_active s !! zone card = Some true) /\
    dot_color view <> C.muted /\ status_fg view = dot_color view /\
    (valve_text view = "OPEN" <-> valve_status s !! zone_idx card = Some true) /\
    (valve_bg view = C.green <-> valve_status s !! zone_idx card = Some true).
Proof.
  intros Hr Hcard.
  destruct (ZoneCard_update_exec s w card Hr Hcard)
    as (p & f & min_ok & base & b & v & Hp & Hf & Hb & _ & _ & Hv & Hexec).
  eexists. split; [exact Hexec|]. simpl.
  split; [done|]. split; [rewrite Hb; split; congruence|].
  split; [apply status_color_spec|]. split; [done|].
  rewrite Hv. destruct v; split; (done || congruence).
Qed.

(** X10.  How the gauge colour and the status of a card relate on a
    reachable state.  For a zone that is not flagged: the status reads LOW
    exactly when the gauge is red, a HIGH status comes with an amber gauge,
    and a green gauge comes with status OK.  (The gauge turns amber above
    base + 0.7, the status HIGH only above base + 0.8.) *)
Theorem gauge_agrees_with_status (s : WaterSimulator) (w : W) (card : ZoneCard) :
  reachable s -> card ∈ zone_cards ->
  anomaly_active s !! zone card = Some false ->
  exists view,
    ZoneCard_update format_f card s w = Returns view s w /\
    (status_text view = "● LOW" <-> gauge_color view = C.red) /\
    (status_text view = "● HIGH" -> gauge_color view = C.amber) /\
    (gauge_color view = C.green -> status_text view = "● OK").
Proof.
  intros Hr Hcard Hoff.
  destruct (ZoneCard_update_exec s w card Hr Hcard)
    as (p & f & min_ok & base & b & v & Hp & Hf & Hb & Hno & _ & Hv & Hexec).
  eexists. split; [exact Hexec|]. simpl.
  rewrite Hno by congruence. unfold zone_status_spec, pressure_bar_color.
  destruct (Qltb p min_ok) eqn:E1; [by repeat split|].
  destruct (Qltb (base + 0.8) p) eqn:E2.
  - assert (Qltb (base + 0.7) p = true) as ->.
    { apply Qltb_lt. apply Qltb_lt in E2. lra. }
    by repeat split.
  - destruct (Qltb (base + 0.7) p); by repeat split.
Qed.

Lemma AIPanel_row_exec (fw : Z) (s : WaterSimulator) (w : W) (z : string) :
  reachable s -> z ∈ ZONES ->
  exists p base b ty,
    let score := min 1.0 (Qabs (p - base) / base * 3) in
    let width := if (1 <? fw)%Z then int (inject_Z fw * score) else int (180 * score) in
    let color := if b : bool
                 then if bool_decide (ty = Some "burst") then C.red else C.amber
                 else if Qltb 0.5 score then C.amber else C.green in
    let label := if b then ai_label ty
                 else if Qltb 0.5 score then "Elevated" else "Normal" in
    (0 < base)%Q /\ anomaly_active s !! z = Some b /\ anomaly_type s !! z = Some ty /\
    (b = true -> exists k, k ∈ ANOMALY_TYPES /\ ty = Some k) /\
    AIPanel_row fw z s w = Returns (Row color (Z.max 2 width) label color) s w.
Proof.
  intros Hr Hz. pose proof (reachable_Inv s Hr) as HI.
  assert (exists i, (i, z) ∈ enumerate ZONES) as [i Hiz].
  { apply elem_of_ZONES in Hz. destruct Hz as [->|[->|[->| ->]]];
      eexists; apply elem_of_enumerate_ZONES; eauto 10. }
  destruct (zone_status_exec s w i z HI Hiz)
    as (d & p & min_ok & base & b & Hd & Hlast & _ & Hbase & Hb18 & Hidx & Hb & _ & _ & _).
  destruct (coherent_type_Some s z b HI Hb) as [ty Hty].
  exists p, base, b, ty. cbv zeta.
  split; [lra|]. do 2 (split; [done|]). split.
  { intros ->. pose proof (inv_coherent s HI z) as Hco. rewrite Hb, Hty in Hco.
    destruct ty as [k|]; [|done]. by exists k. }
  unfold AIPanel_row, current_pressure.
  unfold bind at 1, bind at 1, dict_get at 1. rewrite Hd.
  unfold deque_last. rewrite Hlast. unfold ret at 1. rewrite Hidx.
  unfold bind at 1, list_get at 1. rewrite Hbase.
  unfold bind at 1, dict_get at 1. rewrite Hb.
  destruct b.
  - unfold bind at 1, bind at 1, dict_get at 1. rewrite Hty. done.
  - unfold bind at 1. by destruct (Qltb 0.5 _).
Qed.

(** X11.  On a reachable state the row [AIPanel.refresh] computes for a
    configured zone exists (no exception, nothing changed), its bar is at
    least 2 wide and at most as wide as the frame (180 when the toolkit
    has not laid the frame out), and the label and the bar share a colour.
    A flagged zone shows one of the three anomaly labels, never the
    fallback, and is red exactly for a burst; an unflagged zone shows
    Normal in green or Elevated in amber. *)
Theorem ai_panel_row (fw : Z) (s : WaterSimulator) (w : W) (z : string) :
  reachable s -> z ∈ ZONES ->
  exists r,
    AIPanel_row fw z s w = Returns r s w /\
    (2 <= bar_width r <= Z.max 2 (if (1 <? fw)%Z then fw else 180))%Z /\
    type_fg r = bar_bg r /\
    (anomaly_active s !! z = Some true ->
       type_text r ∈ ["⚠ Leak"; "🔴 BURST!"; "⬇ Low P"] /\
       (bar_bg r = C.red <-> anomaly_type s !! z = Some (Some "burst"))) /\
    (anomaly_active s !! z = Some false ->
       (type_text r = "Normal" /\ bar_bg r = C.green) \/
       (type_text r = "Elevated" /\ bar_bg r = C.amber)).
Proof.
  intros Hr Hz.
  destruct (AIPanel_row_exec fw s w z Hr Hz)
    as (p & base & b & ty & Hbase & Hb & Hty & Hk & Hexec).
  eexists. split; [exact Hexec|]. cbn [bar_width type_fg bar_bg type_text].
  pose proof (anomaly_score_range p base Hbase) as [Hs0 Hs1].
  set (score := min 1.0 (Qabs (p - base) / base * 3)) in *.
  split; [|split; [done|split]].
  - split; [lia|]. destruct (Z.ltb_spec 1 fw) as [Hfw|Hfw].
    + assert (0 <= inject_Z fw)%Q by (rewrite <- (Zle_Qle 0); lia).
      destruct (int_bounds (inject_Z fw * score) fw); [split; nra|]. lia.
    + destruct (int_bounds (180 * score) 180); [split; [lra|]|lia].
      change (inject_Z 180) with 180%Q. lra.
  - rewrite Hb. intros [= ->]. destruct (Hk eq_refl) as (k & Hkin & ->).
    rewrite Hty. unfold ANOMALY_TYPES in Hkin.
    rewrite !elem_of_cons, elem_of_nil in Hkin.
    destruct Hkin as [->|[->|[->|[]]]]; simpl;
      (split; [rewrite !elem_of_cons; tauto|]);
      case_bool_decide; unfold C.red, C.amber; split; intros; (done || congruence).
  - rewrite Hb. intros [= ->]. destruct (Qltb 0.5 score); tauto.
Qed.

(** X12.  On a reachable state [AlertPanel.refresh] lists one row per
    logged alert, in log order and at most 50; the counter it shows is
    [total_alerts]; each row carries the message built for a configured zone and one of the
    three anomaly types, in red exactly for a burst. *)
Theorem alert_panel_rows (s : WaterSimulator) (w : W) :
  reachable s ->
  exists rows count,
    AlertPanel_refresh s w = Returns (rows, count) s w /\
    count = pretty (total_alerts s) +:+ " alerts" /\
    length rows = length (alerts s) /\ (length rows <= 50)%nat /\
    forall i a, alerts s !! i = Some a ->
      exists zone k, zone ∈ ZONES /\ k ∈ ANOMALY_TYPES /\
        rows !! i = Some ("  " +:+ a.1.1 +:+ "  " +:+ alert_message zone (Some k),
                          if bool_decide (k = "burst") then C.red else C.amber).
Proof.
  intros Hr. pose proof (reachable_Inv s Hr) as HI.
  pose proof (reachable_Inv2 s Hr) as HI2.
  exists (alert_row <$> alerts s), (pretty (total_alerts s) +:+ " alerts").
  split; [reflexivity|]. split; [done|].
  rewrite length_fmap. split; [done|]. split; [by apply inv_alerts|].
  intros i a Ha. pose proof (inv_alert_entries s HI2) as Hwf.
  rewrite Forall_forall in Hwf.
  destruct (Hwf a) as (zone & k & Hz & Hk & Hm & Hty).
  { by eapply list_elem_of_lookup_2. }
  exists zone, k. do 2 (split; [done|]).
  trans (alert_row <$> Some a);
    [rewrite list_lookup_fmap; f_equal; exact Ha|].
  simpl. destruct a as [[ts msg] atype].
  simpl in *. subst msg atype. do 3 f_equal.
  unfold ANOMALY_TYPES in Hk. rewrite !elem_of_cons, elem_of_nil in Hk.
  by destruct Hk as [->|[->|[->|[]]]].
Qed.

Lemma update_present (labels : gmap string (string * string)) key label :
  is_Some (labels !! key) ->
  (if bool_decide (is_Some (labels !! key)) then <[key := label]> labels else labels) =
  <[key := label]> labels.
Proof. intros Hk. by rewrite bool_decide_eq_true_2. Qed.

Lemma KPIStrip_refresh_exec (labels : gmap string (string * string))
    (s : WaterSimulator) (w : W) :
  (forall key, is_Some (labels !! key) <-> is_Some (KPIStrip_init !! key)) ->
  KPIStrip_refresh format_f labels s w =
  Returns
    (<["🕒 Last Update" := ((datetime_now_strftime w).1, C.muted)]>
     (<["🔔 Total Alerts" :=
          (pretty (total_alerts s), if (0 <? total_alerts s)%Z then C.red else C.green)]>
      (<["🟢 Uptime" :=
           (format_f 1 (uptime_pct s) +:+ "%",
            if Qltb 97 (uptime_pct s) then C.green else C.amber)]>
       (<["⚡ Energy Used" := (format_f 1 (energy_kwh s) +:+ " kWh", C.green)]>
        (<["📊 NRW %" :=
             (format_f 1 (nrw_percent s) +:+ "%",
              if Qltb 25 (nrw_percent s) then C.red else C.amber)]> labels)))))
    s (datetime_now_strftime w).2.
Proof.
  intros Hkeys.
  assert (forall key, is_Some (KPIStrip_init !! key) -> is_Some (labels !! key)) as Hin
    by (intros key; apply Hkeys).
  unfold KPIStrip_refresh, bind, call, gets, ret.
  destruct (datetime_now_strftime w) as [now w']. cbn [foldl fst snd id].
  repeat rewrite update_present; try done;
    repeat apply is_Some_insert_keep; apply Hin; vm_compute; by eexists.
Qed.

(** X13.  [KPIStrip.refresh] never fails and never changes the simulator.
    On labels with the six titles of [__init__] it keeps exactly those
    titles, leaves the "Total Zones" label alone and rewrites the other
    five; the alert card carries [total_alerts], in green exactly when the
    counter is not positive; the uptime card is green exactly above 97. *)
Theorem kpi_strip_refresh (labels : gmap string (string * string))
    (s : WaterSimulator) (w : W) :
  (forall key, is_Some (labels !! key) <-> is_Some (KPIStrip_init !! key)) ->
  exists labels' w',
    KPIStrip_refresh format_f labels s w = Returns labels' s w' /\
    (forall key, is_Some (labels' !! key) <-> is_Some (KPIStrip_init !! key)) /\
    labels' !! "💧 Total Zones" = labels !! "💧 Total Zones" /\
    labels' !! "🔔 Total Alerts" =
      Some (pretty (total_alerts s),
            if (0 <? total_alerts s)%Z then C.red else C.green) /\
    labels' !! "🟢 Uptime" =
      Some (format_f 1 (uptime_pct s) +:+ "%",
            if Qltb 97 (uptime_pct s) then C.green else C.amber) /\
    labels' !! "📊 NRW %" =
      Some (format_f 1 (nrw_percent s) +:+ "%",
            if Qltb 25 (nrw_percent s) then C.red else C.amber).
Proof.
  intros Hkeys. rewrite (KPIStrip_refresh_exec labels s w Hkeys).
  eexists _, _. split; [reflexivity|].
  split; [|split; [|split; [|split]]].
  - intros key. rewrite <- Hkeys. rewrite !lookup_insert.
    repeat case_decide; try done; subst; split; intros _; try (by eexists);
      apply Hkeys; vm_compute; by eexists.
  - by rewrite !lookup_insert_ne.
  - rewrite lookup_insert_ne by done. by rewrite lookup_insert_eq.
  - do 2 (rewrite lookup_insert_ne by done). by rewrite lookup_insert_eq.
  - do 4 (rewrite lookup_insert_ne by done). by rewrite lookup_insert_eq.
Qed.

Lemma chart_data_returns (x : list Z) (i n : nat) (s : WaterSimulator) (w : W) :
  Inv s -> (i + n <= 4)%nat ->
  exists lines,
    chart_data x i n s w = Returns lines s w /\ length lines = n /\
    Forall (fun xy => xy.1 = x /\ length xy.2 = 120%nat) lines.
Proof.
  intros HI. revert i. induction n as [|n IH]; intros i Hin.
  - by exists [].
  - assert (exists z, ZONES !! i = Some z /\ z ∈ ZONES) as (z & Hzi & Hz).
    { destruct (lookup_lt_is_Some_2 ZONES i) as [z Hzi]; [simpl; lia|].
      exists z. split; [done|]. by eapply list_elem_of_lookup_2. }
    destruct (inv_pressure s HI z Hz) as (d & Hd & Hl & _).
    destruct (IH (S i)) as (rest & Hexec & Hlen & Hall); [lia|].
    exists ((x, items d) :: rest). split; [|split].
    + simpl. unfold bind at 1, list_get at 1. rewrite Hzi.
      unfold bind at 1, dict_get at 1. rewrite Hd.
      unfold bind at 1. by rewrite Hexec.
    + simpl. by rewrite Hlen.
    + by constructor.
Qed.

Lemma chart_data_raises (x : list Z) (i n : nat) (s : WaterSimulator) (w : W) :
  Inv s -> (i <= 4)%nat -> (4 < i + n)%nat ->
  chart_data x i n s w = Raises IndexError s w.
Proof.
  intros HI. revert i. induction n as [|n IH]; intros i Hi Hin; [lia|].
  destruct (decide (i = 4%nat)) as [->|Hne]; [done|].
  assert (exists z, ZONES !! i = Some z /\ z ∈ ZONES) as (z & Hzi & Hz).
  { destruct (lookup_lt_is_Some_2 ZONES i) as [z Hzi]; [simpl; lia|].
    exists z. split; [done|]. by eapply list_elem_of_lookup_2. }
  destruct (inv_pressure s HI z Hz) as (d & Hd & _).
  simpl. unfold bind at 1, list_get at 1. rewrite Hzi.
  unfold bind at 1, dict_get at 1. rewrite Hd.
  unfold bind at 1. rewrite IH by lia. done.
Qed.

Lemma chart_panel_lines (s : WaterSimulator) (w : W) (nlines : nat) :
  reachable s -> (nlines <= 4)%nat ->
  exists lines,
    ChartPanel_refresh true nlines s w = Returns lines s w /\
    length lines = nlines.
Proof.
  intros Hr Hn. pose proof (reachable_Inv s Hr) as HI.
  pose proof (inv_history_len s (reachable_Inv2 s Hr)) as Hhl.
  destruct (chart_data_returns (Z.of_nat <$> seq 0 120) 0 nlines s w HI)
    as (lines & Hexec & Hlen & _); [lia|].
  exists lines. split; [|done].
  unfold ChartPanel_refresh, bind, gets. cbn [negb]. cbv beta iota. by rewrite Hhl.
Qed.

(** X14.  On a reachable state [ChartPanel.refresh] hands every line an
    x axis [0 .. 119] and a y series of the same length, 120, for up to
    four lines; with more than four lines it raises [IndexError] (there is
    no fifth zone); without matplotlib it does nothing.  The simulator is
    unchanged in every case. *)
Theorem chart_panel_refresh (s : WaterSimulator) (w : W) (nlines : nat) :
  reachable s ->
  ChartPanel_refresh false nlines s w = Returns [] s w /\
  ((nlines <= 4)%nat ->
   exists lines,
     ChartPanel_refresh true nlines s w = Returns lines s w /\
     length lines = nlines /\
     Forall (fun xy => xy.1 = Z.of_nat <$> seq 0 120 /\
                       length xy.1 = length xy.2) lines) /\
  ((4 < nlines)%nat -> ChartPanel_refresh true nlines s w = Raises IndexError s w).
Proof.
  intros Hr. pose proof (reachable_Inv s Hr) as HI.
  pose proof (inv_history_len s (reachable_Inv2 s Hr)) as Hhl.
  assert (ChartPanel_refresh true nlines s w =
          chart_data (Z.of_nat <$> seq 0 120) 0 nlines s w) as ->.
  { unfold ChartPanel_refresh, bind, gets. cbn [negb]. cbv beta iota. by rewrite Hhl. }
  split; [done|]. split.
  - intros Hn.
    destruct (chart_data_returns (Z.of_nat <$> seq 0 120) 0 nlines s w HI)
      as (lines & Hexec & Hlen & Hall); [lia|].
    exists lines. split; [done|]. split; [done|].
    eapply Forall_impl; [exact Hall|]. intros [x y] [Hx Hy]. simpl in *.
    split; [done|]. by rewrite Hx, Hy.
  - intros Hn. by apply chart_data_raises; [|lia|lia].
Qed.

Lemma update_cards_returns (cards : list ZoneCard) (s : WaterSimulator) (w : W) :
  reachable s -> Forall (fun card => card ∈ zone_cards) cards ->
  exists views, update_cards format_f cards s w = Returns views s w /\
    length views = length cards.
Proof.
  intros Hr. induction cards as [|card cards IH]; intros Hall.
  - by exists [].
  - apply Forall_cons in Hall as [Hcard Hall].
    destruct (ZoneCard_update_exec s w card Hr Hcard)
      as (p & f & min_ok & base & b & v & _ & _ & _ & _ & _ & _ & Hexec).
    destruct (IH Hall) as (views & Hexec' & Hlen).
    eexists (_ :: views). split; [|simpl; by rewrite Hlen].
    simpl. unfold bind at 1. rewrite Hexec. unfold bind at 1. by rewrite Hexec'.
Qed.

Lemma AIPanel_rows_returns (widths : string -> Z) (zs : list string)
    (s : WaterSimulator) (w : W) :
  reachable s -> Forall (fun z => z ∈ ZONES) zs ->
  exists rows, AIPanel_rows widths zs s w = Returns rows s w /\
    length rows = length zs.
Proof.
  intros Hr. induction zs as [|z zs IH]; intros Hall.
  - by exists [].
  - apply Forall_cons in Hall as [Hz Hall].
    destruct (AIPanel_row_exec (widths z) s w z Hr Hz)
      as (p & base & b & ty & _ & _ & _ & _ & Hexec).
    destruct (IH Hall) as (rows & Hexec' & Hlen).
    eexists (_ :: rows). split; [|simpl; by rewrite Hlen].
    simpl. unfold bind at 1. rewrite Hexec. unfold bind at 1. by rewrite Hexec'.
Qed.

(** X15.  On a reachable state a whole [_refresh_ui] pass over the four
    cards never raises and leaves the simulator exactly as it was: it only
    reads.  It shows four card views, four AI rows, one alert row per
    logged alert, and a status bar that reads LIVE exactly when the
    simulation is running and ends with the alert counter. *)
Theorem refresh_ui_reads_only (app : HydronautsApp)
    (labels : gmap string (string * string)) (HAS_MPL : bool) (nlines : nat)
    (widths : string -> Z) (s : WaterSimulator) (w : W) :
  reachable s ->
  (forall key, is_Some (labels !! key) <-> is_Some (KPIStrip_init !! key)) ->
  (nlines <= 4)%nat ->
  exists d w' now,
    _refresh_ui format_f app zone_cards labels HAS_MPL nlines widths s w =
      Returns d s w' /\
    length (card_views d) = 4%nat /\ length (ai_rows d) = 4%nat /\
    length (chart_lines d) = (if HAS_MPL then nlines else 0%nat) /\
    length (alert_rows d) = length (alerts s) /\
    status_bar d =
      now +:+ " · " +:+ (if _sim_running app then "LIVE" else "PAUSED") +:+
      " · Alerts " +:+ pretty (total_alerts s).
Proof.
  intros Hr Hkeys Hn.
  destruct (update_cards_returns zone_cards s w Hr) as (views & Hviews & Hlv).
  { apply Forall_forall. auto. }
  pose proof (KPIStrip_refresh_exec labels s w Hkeys) as Hkpi.
  set (w1 := (datetime_now_strftime w).2) in *.
  assert (exists lines, ChartPanel_refresh HAS_MPL nlines s w1 = Returns lines s w1 /\
            length lines = if HAS_MPL then nlines else 0%nat)
    as (lines & Hchart & Hll).
  { destruct HAS_MPL.
    - destruct (chart_panel_lines s w1 nlines Hr Hn) as (lines & ? & ?). by exists lines.
    - by exists []. }
  destruct (AIPanel_rows_returns widths ZONES s w1 Hr) as (rows & Hrows & Hlr).
  { apply Forall_forall. auto. }
  destruct (datetime_now_strftime w1) as [now w2] eqn:Hnow.
  eexists _, w2, now. split.
  - unfold _refresh_ui. unfold bind at 1. rewrite Hviews.
    unfold bind at 1. rewrite Hkpi. unfold bind at 1. rewrite Hchart.
    unfold bind at 1, AlertPanel_refresh at 1, bind at 1, gets at 1, bind at 1,
      gets at 1, ret at 1.
    unfold bind at 1, AIPanel_refresh. rewrite Hrows.
    unfold bind at 1, call at 1. rewrite Hnow.
    unfold bind at 1, gets at 1, ret. reflexivity.
  - simpl. rewrite length_fmap. by repeat split.
Qed.

End PresentationProperties.

(** X16.  One animation frame of the pulsing dot moves the counter to
    [(pulse + 1) mod 20], so it stays within [0 .. 19] and twenty frames
    bring back the counter a frame count started from; for a dot of
    non-negative size the radius of the glow ring lies between
    [int(0.4 * size)] and [int(0.55 * size)], and the solid dot is always
    the 10 by 10 square around the centre. *)
Theorem pulsing_dot_frame (size pulse : Z) :
  (0 <= size)%Z ->
  exists r,
    PulsingDot_animate size pulse =
      (((pulse + 1) mod 20)%Z,
       (size / 2 - r - 2, size / 2 - r - 2, size / 2 + r + 2, size / 2 + r + 2)%Z,
       (size / 2 - 5, size / 2 - 5, size / 2 + 5, size / 2 + 5)%Z) /\
    (0 <= (pulse + 1) mod 20 < 20)%Z /\
    (int (inject_Z size * 0.4) <= r <= int (inject_Z size * 0.55))%Z /\
    ((0 <= pulse < 20)%Z ->
     Nat.iter 20 (fun p => (PulsingDot_animate size p).1.1) pulse = pulse).
Proof.
  intros Hsize. unfold PulsingDot_animate. cbv zeta.
  set (p' := ((pulse + 1) mod 20)%Z).
  assert (Hp' : (0 <= p' < 20)%Z) by (apply Z.mod_pos_bound; lia).
  set (alpha := (Qabs (inject_Z (10 - p')) / 10.0)%Q).
  assert (Halpha : (0 <= alpha <= 1)%Q).
  { unfold alpha.
    change (Qabs (inject_Z (10 - p'))) with (inject_Z (Z.abs (10 - p'))).
    assert (0 <= inject_Z (Z.abs (10 - p')) <= 10)%Q as [? ?].
    { rewrite <- (Zle_Qle 0). change 10%Q with (inject_Z 10).
      rewrite <- Zle_Qle. lia. }
    split.
    - apply Qle_shift_div_l; lra.
    - apply Qle_shift_div_r; lra. }
  assert (Hs : (0 <= inject_Z size)%Q) by (rewrite <- (Zle_Qle 0); lia).
  eexists. split; [reflexivity|]. split; [done|]. split.
  - split; apply int_monotone; split; nra.
  - intros Hpulse. simpl.
    assert (exists n, (n < 20)%nat /\ pulse = Z.of_nat n) as (n & Hn & ->)
      by (exists (Z.to_nat pulse); lia).
    do 20 (destruct n as [|n]; [by vm_compute|]). lia.
Qed.

(** ** The commands of the running application *)

Section InterfaceProperties.
Context {W : Type} `{Runtime W}.

Lemma ui_reachable_reachable (s : WaterSimulator) :
  ui_reachable (W := W) s -> reachable (W := W) s.
Proof.
  induction 1 as [w|s c w Hu IH Hc|s b w Hu IH Hb].
  - apply reach_init.
  - destruct c as [card|card|].
    + apply (reach_command s (Resolve (zone card)) w IH).
    + apply (reach_command s (Toggle (Z.of_nat (zone_idx card))) w IH).
    + apply (reach_command s Clear w IH).
  - by apply reach_block.
Qed.

Lemma ui_reachable_keys (s : WaterSimulator) :
  ui_reachable (W := W) s ->
  forall z, is_Some (anomaly_active s !! z) -> z ∈ ZONES.
Proof.
  induction 1 as [w|s c w Hu IH Hc|s b w Hu IH Hb]; intros z.
  - unfold __init__. destruct (init_flow_hist 120 w) as [fh w']. simpl.
    rewrite !lookup_insert, elem_of_ZONES.
    repeat case_decide; subst; try tauto. rewrite lookup_empty. by intros [].
  - destruct c as [card|card|]; simpl.
    + rewrite lookup_insert. case_decide as E; [|apply IH]. subst z. intros _.
      by eapply enumerate_ZONES_zone, elem_of_zone_cards.
    + unfold ZoneCard_toggle_valve. rewrite toggle_valve_exec.
      destruct (index _ _) as [k|]; [destruct (valve_status s !! k)|]; apply IH.
    + apply IH.
  - pose proof (reachable_Inv s (ui_reachable_reachable s Hu)) as HI.
    destruct b as [|t i z0|t]; simpl.
    + apply IH.
    + destruct (step_zone_trace t i z0 s w HI Hb)
        as (s1 & w1 & s2 & p & f & w' & _ & Hi & He & _ & _ & ->). simpl.
      pose proof (enumerate_ZONES_zone _ _ Hb) as Hz0.
      destruct Hi as [|c ts Hoff Hc], He as [|Hon]; simpl;
        rewrite ?lookup_insert; repeat case_decide; subst; try done; apply IH.
    + destruct (step_metrics_sound t s w HI) as (s' & w' & -> & Hm). simpl.
      destruct Hm; apply IH.
Qed.

(** X17.  While the simulator is driven only by the tick and by the four
    cards and the clear button, no command ever raises, and the anomaly
    dictionaries keep exactly the four configured zones as keys: an
    unknown zone is never referred to. *)
Theorem ui_commands_never_raise (s : WaterSimulator) (w : W) (c : ui_command) :
  ui_reachable (W := W) s -> valid_ui_command c ->
  (exists s', run_ui_command c s w = Returns tt s' w) /\
  (forall z, is_Some (anomaly_active s !! z) <-> z ∈ ZONES) /\
  (forall z, is_Some (anomaly_type s !! z) <-> z ∈ ZONES).
Proof.
  intros Hu Hc. pose proof (ui_reachable_reachable s Hu) as Hr.
  pose proof (reachable_Inv s Hr) as HI.
  assert (Hkeys : forall z, is_Some (anomaly_active s !! z) <-> z ∈ ZONES).
  { intros z. split; [by apply ui_reachable_keys|by apply inv_zones]. }
  split; [|split; [done|]].
  - destruct c as [card|card|]; simpl.
    + by eexists.
    + unfold ZoneCard_toggle_valve. rewrite toggle_valve_exec.
      pose proof (elem_of_zone_cards card Hc) as Hiz.
      assert (zone_idx card < 4)%nat as Hlt
        by (apply elem_of_enumerate_ZONES in Hiz; lia).
      unfold index. rewrite (inv_valves s HI).
      destruct (Z.leb_spec 0 (Z.of_nat (zone_idx card))),
        (Z.ltb_spec (Z.of_nat (zone_idx card)) (Z.of_nat 4)); simpl; try lia.
      rewrite Nat2Z.id.
      destruct (lookup_lt_is_Some_2 (valve_status s) (zone_idx card)) as [v ->];
        [rewrite (inv_valves s HI); lia|].
      by eexists.
    + by eexists.
  - intros z. rewrite <- Hkeys.
    pose proof (inv_coherent s HI z) as Hco. unfold coherent_at in Hco.
    destruct (anomaly_active s !! z) as [[]|], (anomaly_type s !! z) as [[k|]|];
      try done; split; intros [? ?]; done || by eexists.
Qed.

End InterfaceProperties.

(** ** The further properties on concrete runs *)

Section MoreRuns.
Import Tape.

Lemma cardA_built : cardA ∈ zone_cards.
Proof. unfold zone_cards, cardA. simpl. left. Defined.

Lemma burst_alert_logged : burst_alert ∈ alerts sim1.
Proof. vm_compute. left. Defined.

Lemma sim1_ui_reachable : ui_reachable (H := Tape.runtime) sim1.
Proof.
  unfold sim1. rewrite step_as_blocks.
  assert (forall l s w, ui_reachable (H := Tape.runtime) s -> Forall valid_block l ->
            ui_reachable (final (for_each l run_block s w))) as Hblocks.
  { induction l as [|b l IH]; intros s w Hu Hl; [done|].
    apply Forall_cons in Hl as [Hb Hl].
    pose proof (ui_block_step s b w Hu Hb) as Hu1.
    simpl. unfold bind. destruct (run_block b s w) as [[] s1 w1|e s1 w1]; [|done].
    by apply IH. }
  apply Hblocks; [|apply valid_tick_blocks].
  apply (ui_block_step sim0 Begin two_injections); [apply ui_init|done].
Defined.

(** X2 on a concrete state: zone A, not flagged at start-up, is resolved. *)
Lemma resolve_anomaly_idempotent_witness :
  reachable (H := Tape.runtime) sim0 /\ anomaly_active sim0 !! zoneA = Some false /\
  resolve_anomaly (W := list Z) zoneA sim0 (@nil Z) = Returns tt sim0 (@nil Z).
Proof.
  assert (anomaly_active sim0 !! zoneA = Some false) as Hoff by (by vm_compute).
  split; [apply sim0_reachable|]. split; [exact Hoff|].
  destruct (resolve_anomaly_idempotent (H := Tape.runtime) sim0 (@nil Z) zoneA zoneA)
    as (_ & _ & Hsame).
  exact (Hsame sim0_reachable Hoff).
Defined.

(** X1 on a concrete state: valve 2 toggled twice. *)
Lemma toggle_valve_involutive_witness :
  (- Z.of_nat (length (valve_status sim1)) <= 2 < Z.of_nat (length (valve_status sim1)))%Z /\
  exists s1,
    toggle_valve (W := list Z) 2 sim1 (@nil Z) = Returns tt s1 (@nil Z) /\
    toggle_valve (W := list Z) 2 s1 (@nil Z) = Returns tt sim1 (@nil Z).
Proof.
  assert (- Z.of_nat (length (valve_status sim1)) <= 2
          < Z.of_nat (length (valve_status sim1)))%Z as Hidx by (by vm_compute).
  split; [exact Hidx|]. apply (toggle_valve_involutive sim1 (@nil Z) 2 Hidx).
Defined.

(** X3 on a concrete state: zone A after one tick. *)
Lemma stored_samples_respect_floors_witness :
  reachable (H := Tape.runtime) sim1 /\ zoneA ∈ ZONES /\
  exists p f,
    current_pressure (W := list Z) zoneA sim1 (@nil Z) = Returns p sim1 (@nil Z) /\ (0.3 <= p)%Q /\
    current_flow (W := list Z) zoneA sim1 (@nil Z) = Returns f sim1 (@nil Z) /\ (0.5 <= f)%Q.
Proof.
  split; [apply sim1_reachable|]. split; [apply zoneA_configured|].
  destruct (stored_samples_respect_floors sim1 (@nil Z) zoneA sim1_reachable zoneA_configured)
    as (dp & df & p & f & _ & _ & _ & _ & H1 & H2 & H3 & H4).
  exists p, f. split; [exact H1|]. split; [exact H2|]. split; [exact H3|exact H4].
Defined.

(** X4 on a concrete state: the burst alert of zone B. *)
Lemma logged_alerts_well_formed_witness :
  reachable (H := Tape.runtime) sim1 /\ burst_alert ∈ alerts sim1 /\
  exists zone k, zone ∈ ZONES /\ k ∈ ANOMALY_TYPES /\
    burst_alert.1.2 = alert_message zone (Some k) /\ burst_alert.2 = Some k.
Proof.
  split; [apply sim1_reachable|]. split; [apply burst_alert_logged|].
  destruct (logged_alerts_well_formed sim1 burst_alert sim1_reachable burst_alert_logged)
    as (zone & k & H1 & H2 & H3 & H4 & _).
  exists zone, k. split; [exact H1|]. split; [exact H2|]. split; [exact H3|exact H4].
Defined.

(** X5 on a concrete state: a zone the simulator does not know. *)
Lemma unknown_zone_raises_KeyError_witness :
  reachable (H := Tape.runtime) sim1 /\ ("Zone X" ∉ ZONES) /\
  zone_status (W := list Z) "Zone X" sim1 (@nil Z) = Raises KeyError sim1 (@nil Z).
Proof.
  assert ("Zone X" ∉ ZONES) as Hout
    by (rewrite elem_of_ZONES; intuition discriminate).
  split; [apply sim1_reachable|]. split; [exact Hout|].
  apply (unknown_zone_raises_KeyError sim1 (@nil Z) "Zone X" sim1_reachable Hout).
Defined.

(** X6 on a concrete run: zone A, flagged, goes through another iteration. *)
Lemma active_zone_not_reinjected_witness :
  reachable (H := Tape.runtime) sim1 /\ (0%nat, zoneA) ∈ enumerate ZONES /\
  anomaly_active sim1 !! zoneA = Some true /\
  exists s' w',
    step_zone (W := list Z) 2 0 zoneA sim1 (@nil Z) = Returns tt s' w' /\
    alerts s' = alerts sim1 /\ total_alerts s' = total_alerts sim1.
Proof.
  assert (anomaly_active sim1 !! zoneA = Some true) as Hon by (by vm_compute).
  split; [apply sim1_reachable|]. split; [apply zoneA_enumerated|]. split; [exact Hon|].
  destruct (active_zone_not_reinjected sim1 (@nil Z) 2 0 zoneA
              sim1_reachable zoneA_enumerated Hon) as (s' & w' & H1 & H2 & H3 & _).
  exists s', w'. split; [exact H1|]. split; [exact H2|exact H3].
Defined.

(** X7 on a concrete run: zone A's iteration leaves zone B alone. *)
Lemma zone_iterations_independent_witness :
  reachable (H := Tape.runtime) sim0 /\ (0%nat, zoneA) ∈ enumerate ZONES /\
  "Zone B (North)" <> zoneA /\
  exists s' w',
    step_zone (W := list Z) 1 0 zoneA sim0 two_injections = Returns tt s' w' /\
    anomaly_active s' !! "Zone B (North)" = anomaly_active sim0 !! "Zone B (North)" /\
    pressure_hist s' !! "Zone B (North)" = pressure_hist sim0 !! "Zone B (North)".
Proof.
  assert ("Zone B (North)" <> zoneA) as Hne by discriminate.
  split; [apply sim0_reachable|]. split; [apply zoneA_enumerated|]. split; [exact Hne|].
  destruct (zone_iterations_independent sim0 two_injections 1 0 zoneA "Zone B (North)"
              sim0_reachable zoneA_enumerated Hne) as (s' & w' & H1 & H2 & _ & H3 & _).
  exists s', w'. split; [exact H1|]. split; [exact H2|exact H3].
Defined.

(** X9 on a concrete state: the card of zone A while it leaks. *)
Lemma zone_card_view_witness :
  reachable (H := Tape.runtime) sim1 /\ cardA ∈ zone_cards /\
  exists view,
    ZoneCard_update (W := list Z) plain_format cardA sim1 (@nil Z) = Returns view sim1 (@nil Z) /\
    (0.3 <= gauge_value view)%Q /\ dot_color view <> C.muted.
Proof.
  split; [apply sim1_reachable|]. split; [apply cardA_built|].
  destruct (zone_card_view plain_format sim1 (@nil Z) cardA sim1_reachable cardA_built)
    as (view & H1 & H2 & _ & H3 & _).
  exists view. split; [exact H1|]. split; [exact H2|exact H3].
Defined.

(** X10 on a concrete state: the card of zone A at start-up. *)
Lemma gauge_agrees_with_status_witness :
  reachable (H := Tape.runtime) sim0 /\ cardA ∈ zone_cards /\
  anomaly_active sim0 !! zone cardA = Some false /\
  exists view,
    ZoneCard_update (W := list Z) plain_format cardA sim0 (@nil Z) = Returns view sim0 (@nil Z) /\
    (status_text view = "● LOW" <-> gauge_color view = C.red).
Proof.
  assert (anomaly_active sim0 !! zone cardA = Some false) as Hoff by (by vm_compute).
  split; [apply sim0_reachable|]. split; [apply cardA_built|]. split; [exact Hoff|].
  destruct (gauge_agrees_with_status plain_format sim0 (@nil Z) cardA
              sim0_reachable cardA_built Hoff) as (view & H1 & H2 & _).
  exists view. split; [exact H1|exact H2].
Defined.

(** X11 on a concrete state: the row of zone A in a frame 180 wide. *)
Lemma ai_panel_row_witness :
  reachable (H := Tape.runtime) sim1 /\ zoneA ∈ ZONES /\
  exists r,
    AIPanel_row (W := list Z) 180 zoneA sim1 (@nil Z) = Returns r sim1 (@nil Z) /\
    (2 <= bar_width r <= 180)%Z.
Proof.
  split; [apply sim1_reachable|]. split; [apply zoneA_configured|].
  destruct (ai_panel_row 180 sim1 (@nil Z) zoneA sim1_reachable zoneA_configured)
    as (r & H1 & H2 & _).
  exists r. split; [exact H1|]. simpl in H2. lia.
Defined.

(** X12 on a concrete state: two rows. *)
Lemma alert_panel_rows_witness :
  reachable (H := Tape.runtime) sim1 /\
  exists rows count,
    AlertPanel_refresh (W := list Z) sim1 (@nil Z) = Returns (rows, count) sim1 (@nil Z) /\
    length rows = length (alerts sim1).
Proof.
  split; [apply sim1_reachable|].
  destruct (alert_panel_rows sim1 (@nil Z) sim1_reachable)
    as (rows & count & H1 & _ & H2 & _).
  exists rows, count. split; [exact H1|exact H2].
Defined.

(** X13 on the labels the strip starts with. *)
Lemma kpi_strip_refresh_witness :
  (forall key, is_Some (KPIStrip_init !! key) <-> is_Some (KPIStrip_init !! key)) /\
  exists labels' w',
    KPIStrip_refresh (W := list Z) plain_format KPIStrip_init sim1 (@nil Z) =
      Returns labels' sim1 w' /\
    labels' !! "💧 Total Zones" = KPIStrip_init !! "💧 Total Zones".
Proof.
  assert (forall key, is_Some (KPIStrip_init !! key) <-> is_Some (KPIStrip_init !! key))
    as Hkeys by done.
  split; [exact Hkeys|].
  destruct (kpi_strip_refresh plain_format KPIStrip_init sim1 (@nil Z) Hkeys)
    as (labels' & w' & H1 & _ & H2 & _).
  exists labels', w'. split; [exact H1|exact H2].
Defined.

(** X14 on a concrete state: the four lines of the chart. *)
Lemma chart_panel_refresh_witness :
  reachable (H := Tape.runtime) sim1 /\
  exists lines,
    ChartPanel_refresh (W := list Z) true 4 sim1 (@nil Z) = Returns lines sim1 (@nil Z) /\
    length lines = 4%nat.
Proof.
  split; [apply sim1_reachable|].
  destruct (chart_panel_refresh sim1 (@nil Z) 4 sim1_reachable) as (_ & Hlines & _).
  destruct (Hlines (le_n 4)) as (lines & H1 & H2 & _).
  exists lines. split; [exact H1|exact H2].
Defined.

(** X15 on a concrete state: one refresh pass of the running application. *)
Lemma refresh_ui_reads_only_witness :
  reachable (H := Tape.runtime) sim1 /\
  (forall key, is_Some (KPIStrip_init !! key) <-> is_Some (KPIStrip_init !! key)) /\
  (4 <= 4)%nat /\
  exists d w',
    _refresh_ui (W := list Z) plain_format (App true) zone_cards KPIStrip_init true 4
      (fun _ => 180%Z) sim1 (@nil Z) = Returns d sim1 w' /\
    length (card_views d) = 4%nat.
Proof.
  assert (forall key, is_Some (KPIStrip_init !! key) <-> is_Some (KPIStrip_init !! key))
    as Hkeys by done.
  split; [apply sim1_reachable|]. split; [exact Hkeys|]. split; [apply le_n|].
  destruct (refresh_ui_reads_only plain_format (App true) KPIStrip_init true 4
              (fun _ => 180%Z) sim1 (@nil Z) sim1_reachable Hkeys (le_n 4))
    as (d & w' & now & H1 & H2 & _).
  exists d, w'. split; [exact H1|exact H2].
Defined.

(** X16 for the dot the application draws (size 14). *)
Lemma pulsing_dot_frame_witness :
  (0 <= 14)%Z /\
  exists r,
    PulsingDot_animate 14 0 =
      (1%Z, (7 - r - 2, 7 - r - 2, 7 + r + 2, 7 + r + 2)%Z, (2, 2, 12, 12)%Z) /\
    (5 <= r <= 7)%Z.
Proof.
  assert (0 <= 14)%Z as Hsize by lia.
  split; [exact Hsize|].
  destruct (pulsing_dot_frame 14 0 Hsize) as (r & H1 & _ & H2 & _).
  exists r. split; [exact H1|]. exact H2.
Defined.

(** X17 on a concrete state: the resolve button of zone A's card. *)
Lemma ui_commands_never_raise_witness :
  ui_reachable (H := Tape.runtime) sim1 /\ valid_ui_command (CardResolve cardA) /\
  exists s', run_ui_command (W := list Z) (CardResolve cardA) sim1 (@nil Z) = Returns tt s' (@nil Z).
Proof.
  split; [apply sim1_ui_reachable|]. split; [apply cardA_built|].
  apply (ui_commands_never_raise sim1 (@nil Z) (CardResolve cardA)
           sim1_ui_reachable cardA_built).
Defined.

End MoreRuns.
